(** * godoc-mcp: cache, pagination and path resolution of [server.go]

    A shallow embedding of the request pipeline of [server.go]
    ([paginate], [validatePath], [readModuleName], [runGoDoc],
    [formatGoDocError], [handleGetDoc]) together with the properties the
    specification states about it.

    Conventions.
    - A Go [string] is a [string] of bytes ([ascii]).
    - A Go [int] is a 64-bit two's complement integer: a [Z] in
      [[minInt, maxInt]], every arithmetic result passed through [wrap].
    - A function returning [(T, error)] returns a [go_result T]; a run-time
      panic (division by zero, slice bounds) is the third constructor.
    - [time.Time] is a [Z] (nanoseconds on the process clock),
      [time.Duration] a saturating 64-bit count of nanoseconds.
    - The map [gs.cache] is a [gmap string cachedDoc]; the order in which a
      [range] loop visits it is not fixed by the language, so it is given by
      the environment of the call ([mapRange]) and only required to be a
      permutation of the entries ([range_ok]).
    - What a call reads from outside the program (files, the clock, the
      output of commands) is an [Env]; what it leaves behind besides the
      cache (commands run, directories removed) is a list of [Event]s.
      Logging is left out.
    - White space in [strings.TrimSpace] and [strings.Fields] is that of
      [unicode.IsSpace], on the runes that [unicode/utf8] decodes from the
      bytes of the string; a byte that is part of no valid encoding is the
      rune [U+FFFD], which is not white space. *)

From Stdlib Require Import ZArith Lia Ascii.
From stdpp Require Import base list strings gmap fin_maps pretty.

Local Open Scope string_scope.
Local Open Scope list_scope.
Local Open Scope Z_scope.

(** ** Go values *)

Inductive go_result (A : Type) : Type :=
  | Ok (a : A)
  | Error (msg : string)
  | Panic (msg : string).
Arguments Ok {A} a.
Arguments Error {A} msg.
Arguments Panic {A} msg.

Definition is_fault {A} (r : go_result A) : bool :=
  match r with Panic _ => true | _ => false end.

Definition is_error {A} (r : go_result A) : bool :=
  match r with Error _ => true | _ => false end.

Module GoInt.

Definition minInt : Z := - 2 ^ 63.
Definition maxInt : Z := 2 ^ 63 - 1.

Definition in_range (z : Z) : Prop := minInt <= z <= maxInt.

(** Two's complement wrap-around of an arithmetic result. *)
Definition wrap (z : Z) : Z := (z + 2 ^ 63) mod 2 ^ 64 - 2 ^ 63.

Definition add (a b : Z) : Z := wrap (a + b).
Definition sub (a b : Z) : Z := wrap (a - b).
Definition mul (a b : Z) : Z := wrap (a * b).

(** [a / b]: truncated towards zero; a zero divisor panics. *)
Definition div (a b : Z) : option Z :=
  if b =? 0 then None else Some (wrap (a ÷ b)).

End GoInt.

(** ** Bytes *)

(** The value of a byte, [s[i]] for an index in range, [s[n:]] and
    [s[:n]]. *)
Definition byte (c : ascii) : Z := Z.of_N (N_of_ascii c).

Definition byteAt (s : string) (i : nat) : Z :=
  match String.get i s with Some c => byte c | None => 0 end.

Fixpoint drop_bytes (n : nat) (s : string) : string :=
  match n, s with
  | O, _ => s
  | S _, "" => ""
  | S n', String _ s' => drop_bytes n' s'
  end.

Fixpoint take_bytes (n : nat) (s : string) : string :=
  match n, s with
  | O, _ => ""
  | S _, "" => ""
  | S n', String x s' => String x (take_bytes n' s')
  end.

(** ** The [unicode/utf8] package *)

Module Utf8.

Definition RuneError : Z := 65533.
Definition RuneSelf : Z := 128.
Definition UTFMax : nat := 4.

Definition maskx : Z := 63.
Definition mask2 : Z := 31.
Definition mask3 : Z := 15.
Definition mask4 : Z := 7.

(** The lowest and the highest continuation byte. *)
Definition locb : Z := 128.
Definition hicb : Z := 191.

(** The entries of the table [first]: the low three bits are the length of
    the encoding, the high four bits the index into [acceptRanges]; [xx]
    marks a byte that starts no encoding, [as_] an ASCII byte. *)
Definition xx : Z := 241.
Definition as_ : Z := 240.
Definition s1 : Z := 2.
Definition s2 : Z := 19.
Definition s3 : Z := 3.
Definition s4 : Z := 35.
Definition s5 : Z := 52.
Definition s6 : Z := 4.
Definition s7 : Z := 68.

(** [first[b]], the table of 256 entries written by the ranges of [b]:
    [0x00-0x7F], [0x80-0xC1], [0xC2-0xDF], [0xE0], [0xE1-0xEC], [0xED],
    [0xEE-0xEF], [0xF0], [0xF1-0xF3], [0xF4], [0xF5-0xFF]. *)
Definition first (b : Z) : Z :=
  if b <? 128 then as_
  else if b <? 194 then xx
  else if b <? 224 then s1
  else if b =? 224 then s2
  else if b <? 237 then s3
  else if b =? 237 then s4
  else if b <? 240 then s3
  else if b =? 240 then s5
  else if b <? 244 then s6
  else if b =? 244 then s7
  else xx.

(** [acceptRanges[i]]: the lowest and the highest second byte. *)
Definition acceptRanges (i : Z) : Z * Z :=
  if i =? 0 then (locb, hicb)
  else if i =? 1 then (160, hicb)
  else if i =? 2 then (locb, 159)
  else if i =? 3 then (144, hicb)
  else if i =? 4 then (locb, 143)
  else (0, 0).

(** [utf8.DecodeRuneInString(s)]: the first rune of [s] and its width in
    bytes; [(RuneError, 0)] for the empty string and [(RuneError, 1)] for
    an encoding that is not valid. A [range] loop over a string decodes
    its runes in the same way. *)
Definition DecodeRuneInString (s : string) : Z * nat :=
  let n := String.length s in
  if (n <? 1)%nat then (RuneError, 0%nat) else
  let s0 := byteAt s 0 in
  let x := first s0 in
  if as_ <=? x then
    ((if x =? xx then RuneError else s0), 1%nat)
  else
  let sz := Z.to_nat (Z.land x 7) in
  let accept := acceptRanges (Z.shiftr x 4) in
  if (n <? sz)%nat then (RuneError, 1%nat) else
  let b1 := byteAt s 1 in
  if (b1 <? accept.1) || (accept.2 <? b1) then (RuneError, 1%nat) else
  if (sz <=? 2)%nat then
    (Z.lor (Z.shiftl (Z.land s0 mask2) 6) (Z.land b1 maskx), 2%nat)
  else
  let b2 := byteAt s 2 in
  if (b2 <? locb) || (hicb <? b2) then (RuneError, 1%nat) else
  if (sz <=? 3)%nat then
    (Z.lor (Z.lor (Z.shiftl (Z.land s0 mask3) 12)
                  (Z.shiftl (Z.land b1 maskx) 6)) (Z.land b2 maskx), 3%nat)
  else
  let b3 := byteAt s 3 in
  if (b3 <? locb) || (hicb <? b3) then (RuneError, 1%nat) else
  (Z.lor (Z.lor (Z.lor (Z.shiftl (Z.land s0 mask4) 18)
                       (Z.shiftl (Z.land b1 maskx) 12))
                (Z.shiftl (Z.land b2 maskx) 6)) (Z.land b3 maskx), 4%nat).

(** [utf8.RuneStart(b)]: [b] is not a continuation byte. *)
Definition RuneStart (b : Z) : bool := negb (Z.land b 192 =? 128).

(** The loop of [DecodeLastRuneInString] that steps [start] back to the
    nearest byte that can start a rune, not further than [lim]. *)
Fixpoint runeStartBefore (steps : nat) (s : string) (start lim : Z) : Z :=
  match steps with
  | O => start
  | S steps =>
      if start <? lim then start
      else if RuneStart (byteAt s (Z.to_nat start)) then start
      else runeStartBefore steps s (start - 1) lim
  end.

(** [utf8.DecodeLastRuneInString(s)]: the last rune of [s] and its
    width. *)
Definition DecodeLastRuneInString (s : string) : Z * nat :=
  let end_ := Z.of_nat (String.length s) in
  if end_ =? 0 then (RuneError, 0%nat) else
  let start := end_ - 1 in
  let r := byteAt s (Z.to_nat start) in
  if r <? RuneSelf then (r, 1%nat) else
  let lim := Z.max (end_ - Z.of_nat UTFMax) 0 in
  let start := runeStartBefore UTFMax s (start - 1) lim in
  let start := if start <? 0 then 0 else start in
  let '(r, size) := DecodeRuneInString (drop_bytes (Z.to_nat start) s) in
  if negb (start + Z.of_nat size =? end_) then (RuneError, 1%nat)
  else (r, size).

End Utf8.

(** ** The [unicode] package *)

Module Unicode.

(** [unicode.IsSpace(r)]: in Latin-1 the characters tab, line feed,
    vertical tab, form feed, carriage return, space, [U+0085] and
    [U+00A0]; above Latin-1 the ranges of the table [White_Space]:
    [U+1680], [U+2000-U+200A], [U+2028], [U+2029], [U+202F], [U+205F] and
    [U+3000]. *)
Definition IsSpace (r : Z) : bool :=
  if (0 <=? r) && (r <=? 255) then
    ((9 <=? r) && (r <=? 13)) || (r =? 32) || (r =? 133) || (r =? 160)
  else
    (r =? 5760) || ((8192 <=? r) && (r <=? 8202)) || (r =? 8232) ||
    (r =? 8233) || (r =? 8239) || (r =? 8287) || (r =? 12288).

End Unicode.

(** ** The [strings] package *)

Module Strings.
Import Utf8 Unicode.

Definition nl : ascii := "010"%char.
Definition NL : string := String nl "".

(** [strings.HasPrefix(s, prefix)]. *)
Fixpoint HasPrefix (s prefix : string) {struct prefix} : bool :=
  match prefix, s with
  | "", _ => true
  | String _ _, "" => false
  | String p prefix', String c s' =>
      if Ascii.eqb c p then HasPrefix s' prefix' else false
  end.

(** [strings.TrimPrefix(s, prefix)]. *)
Definition TrimPrefix (s prefix : string) : string :=
  if HasPrefix s prefix then drop_bytes (String.length prefix) s else s.

(** [strings.Contains(s, substr)]. *)
Fixpoint Contains (s substr : string) : bool :=
  HasPrefix s substr ||
  match s with
  | "" => false
  | String _ s' => Contains s' substr
  end.

(** [strings.Split(s, sep)] for a one-byte separator: the result always
    has one more element than [s] has separators. *)
Fixpoint SplitByte (s : string) (sep : ascii) : list string :=
  match s with
  | "" => [""]
  | String c s' =>
      if Ascii.eqb c sep then "" :: SplitByte s' sep
      else match SplitByte s' sep with
           | [] => [String c ""]
           | l :: ls => String c l :: ls
           end
  end.

(** [strings.Join(elems, sep)]. *)
Fixpoint Join (elems : list string) (sep : string) : string :=
  match elems with
  | [] => ""
  | [e] => e
  | e :: rest => e +:+ sep +:+ Join rest sep
  end.

(** [strings.Cut(s, sep)] for a one-byte separator. *)
Fixpoint CutByte (s : string) (sep : ascii) : string * string * bool :=
  match s with
  | "" => ("", "", false)
  | String c s' =>
      if Ascii.eqb c sep then ("", s', true)
      else let '(before, after, found) := CutByte s' sep in
           (String c before, after, found)
  end.

(** The table [asciiSpace] of the package: tab, line feed, vertical tab,
    form feed, carriage return and space. It is used on bytes below
    [0x80] only. *)
Definition asciiSpace (c : ascii) : bool :=
  let b := byte c in ((9 <=? b) && (b <=? 13)) || (b =? 32).

(** [strings.TrimLeftFunc(s, f)]: [s] from the first rune on that does not
    satisfy [f], which [indexFunc] finds by ranging over the runes of [s];
    the empty string when there is none. The first argument bounds the
    number of runes. *)
Fixpoint trimLeftFunc_go (n : nat) (s : string) (f : Z → bool) : string :=
  match n with
  | O => ""
  | S n =>
      match s with
      | "" => ""
      | _ => let '(r, size) := DecodeRuneInString s in
             if f r then trimLeftFunc_go n (drop_bytes size s) f else s
      end
  end.

Definition TrimLeftFunc (s : string) (f : Z → bool) : string :=
  trimLeftFunc_go (String.length s) s f.

(** [lastIndexFunc(s, f, false)]: the index of the last rune that does not
    satisfy [f], decoding the last rune of [s[0:i]] for [i] stepping down
    from [len(s)]; [None] stands for [-1]. *)
Fixpoint lastIndexFunc_go (n : nat) (s : string) (i : nat) (f : Z → bool)
  : option nat :=
  match n with
  | O => None
  | S n =>
      if (i =? 0)%nat then None
      else
        let '(r, size) := DecodeLastRuneInString (take_bytes i s) in
        let i := (i - size)%nat in
        if f r then lastIndexFunc_go n s i f else Some i
  end.

(** [strings.TrimRightFunc(s, f)]: [s] up to the end of that rune. *)
Definition TrimRightFunc (s : string) (f : Z → bool) : string :=
  match lastIndexFunc_go (String.length s) s (String.length s) f with
  | Some i =>
      if RuneSelf <=? byteAt s i then
        let '(_, wid) := DecodeRuneInString (drop_bytes i s) in
        take_bytes (i + wid) s
      else take_bytes (i + 1) s
  | None => ""
  end.

(** [strings.TrimFunc(s, f)]. *)
Definition TrimFunc (s : string) (f : Z → bool) : string :=
  TrimRightFunc (TrimLeftFunc s f) f.

(** The second loop of [strings.TrimSpace], on [t = s[start:]]: [stop]
    steps down over ASCII white space; at the first byte from [0x80] on,
    what is left is handed to [TrimRightFunc]. *)
Fixpoint trimSpaceStop (t : string) (stop : nat) : string :=
  match stop with
  | O => ""
  | S stop' =>
      match String.get stop' t with
      | None => ""
      | Some c =>
          if RuneSelf <=? byte c then TrimRightFunc (take_bytes stop t) IsSpace
          else if asciiSpace c then trimSpaceStop t stop'
          else take_bytes stop t
      end
  end.

(** [strings.TrimSpace(s)]: the first loop steps [start] up over ASCII
    white space; at the first byte from [0x80] on, what is left is handed
    to [TrimFunc]. *)
Fixpoint TrimSpace (s : string) : string :=
  match s with
  | "" => ""
  | String c s' =>
      if RuneSelf <=? byte c then TrimFunc s IsSpace
      else if asciiSpace c then TrimSpace s'
      else trimSpaceStop s (String.length s)
  end.

(** The text of the span being read, and what ending that span adds to
    the spans found. *)
Definition spanText (cur : option string) : string :=
  match cur with Some w => w | None => "" end.

Definition endSpan (cur : option string) (spans : list string) : list string :=
  match cur with Some w => w :: spans | None => spans end.

(** [strings.FieldsFunc(s, f)]: the maximal runs of runes that do not
    satisfy [f]. [cur] is the span being read, [s[start:end]], or [None]
    when [start < 0]; the first argument bounds the number of runes. *)
Fixpoint fieldsFunc_go (n : nat) (s : string) (f : Z → bool)
    (cur : option string) : list string :=
  match n with
  | O => endSpan cur []
  | S n =>
      match s with
      | "" => endSpan cur []
      | _ =>
          let '(r, size) := DecodeRuneInString s in
          if f r then endSpan cur (fieldsFunc_go n (drop_bytes size s) f None)
          else
            fieldsFunc_go n (drop_bytes size s) f
              (Some (spanText cur +:+ take_bytes size s))
      end
  end.

Definition fieldsFrom (s : string) (f : Z → bool) (cur : option string)
  : list string :=
  fieldsFunc_go (String.length s) s f cur.

Definition FieldsFunc (s : string) (f : Z → bool) : list string :=
  fieldsFrom s f None.

(** The ASCII path of [strings.Fields]: the maximal runs of bytes that are
    not in [asciiSpace]. [cur] is the field being read,
    [s[fieldStart:i]]. *)
Fixpoint fields_go (s : string) (cur : option string) : list string :=
  match s with
  | "" => endSpan cur []
  | String c s' =>
      if asciiSpace c then endSpan cur (fields_go s' None)
      else fields_go s' (Some (spanText cur +:+ String c ""))
  end.

(** [setBits]: the bits that are set in some byte of [s]. *)
Fixpoint setBits (s : string) : Z :=
  match s with
  | "" => 0
  | String c s' => Z.lor (byte c) (setBits s')
  end.

(** [strings.Fields(s)]: [FieldsFunc(s, unicode.IsSpace)] when some byte of
    [s] is not ASCII, the ASCII path otherwise. *)
Definition Fields (s : string) : list string :=
  if RuneSelf <=? setBits s then FieldsFunc s IsSpace
  else fields_go s None.

(** A word of [FieldsFunc]: scanned behind any open span [u], [w] only
    extends that span. Every rune of [w] fails [f], and the last of them
    ends where [w] ends. *)
Definition word (f : Z → bool) (w : string) : Prop :=
  ∀ u, fieldsFrom w f (Some u) = [u +:+ w].

End Strings.

Import Strings.

(** ** [paginate] *)

(** [lines[start:end]] on a slice whose capacity is its length:
    [0 <= start <= end <= len(lines)], otherwise a run-time panic. *)
Definition slice {A} (l : list A) (low high : Z) : option (list A) :=
  if (0 <=? low) && (low <=? high) && (high <=? Z.of_nat (length l))
  then Some (take (Z.to_nat (high - low)) (drop (Z.to_nat low) l))
  else None.

(** The header line written by [fmt.Sprintf]. *)
Definition metadata (page totalPages start end_ totalLines : Z) : string :=
  "Page " +:+ pretty page +:+ " of " +:+ pretty totalPages +:+
  " (showing lines " +:+ pretty (GoInt.add start 1) +:+ "-" +:+ pretty end_ +:+
  " of " +:+ pretty totalLines +:+ ")".

Definition clampPage (page : Z) : Z := if page <? 1 then 1 else page.

(** [totalPages] as computed by lines 192-195. *)
Definition totalPagesOf (totalLines pageSize : Z) : option Z :=
  match GoInt.div (GoInt.sub (GoInt.add totalLines pageSize) 1) pageSize with
  | None => None
  | Some totalPages => Some (if totalPages <? 1 then 1 else totalPages)
  end.

(** [start] and [end] as computed by lines 201-205. *)
Definition pageStart (page pageSize : Z) : Z :=
  GoInt.mul (GoInt.sub page 1) pageSize.

Definition pageEnd (page pageSize totalLines : Z) : Z :=
  let end_ := GoInt.add (pageStart page pageSize) pageSize in
  if totalLines <? end_ then totalLines else end_.

Definition paginate (content : string) (page pageSize : Z) : go_result string :=
  let page := clampPage page in
  let lines := SplitByte content nl in
  let totalLines := Z.of_nat (length lines) in
  match totalPagesOf totalLines pageSize with
  | None => Panic "runtime error: integer divide by zero"
  | Some totalPages =>
      if totalPages <? page then
        Error ("page " +:+ pretty page +:+ " exceeds total pages " +:+
               pretty totalPages)
      else
        let start := pageStart page pageSize in
        let end_ := pageEnd page pageSize totalLines in
        match slice lines start end_ with
        | None => Panic "runtime error: slice bounds out of range"
        | Some pageLines =>
            Ok (metadata page totalPages start end_ totalLines +:+
                NL +:+ NL +:+ Join pageLines NL)
        end
  end.


(** The lines shown on a page: [lines[start:end]] of line 207, empty where
    the slice expression faults. *)
Definition pageLines (content : string) (page pageSize : Z) : list string :=
  let lines := SplitByte content nl in
  default [] (slice lines (pageStart page pageSize)
                    (pageEnd page pageSize (Z.of_nat (length lines)))).

(** The ceiling of [a / b], the number of pages the specification asks
    for. *)
Definition ceilDiv (a b : Z) : Z := - ((- a) / b).

(** [1; 2; ...; n] *)
Definition pageNumbers (n : Z) : list Z :=
  (λ i : nat, Z.of_nat i + 1) <$> seq 0 (Z.to_nat n).


(** ** The [path] and [path/filepath] packages (Unix) *)

Module Path.

Definition slash : ascii := "/"%char.

(** State of [path.Clean] while it walks the elements of a path: the
    number of [..] elements kept at the front of an unrooted result, and
    the ordinary elements kept after them, last one first. *)
Record cleanState := { dotdots : nat; kept : list string }.

Definition cleanStep (rooted : bool) (st : cleanState) (elem : string)
  : cleanState :=
  if String.eqb elem "" then st              (* empty path element *)
  else if String.eqb elem "." then st        (* . element *)
  else if String.eqb elem ".." then
    match kept st with
    | _ :: rest => {| dotdots := dotdots st; kept := rest |}
    | [] => if rooted then st
            else {| dotdots := S (dotdots st); kept := [] |}
    end
  else {| dotdots := dotdots st; kept := elem :: kept st |}.

(** [path.Clean(path)]. *)
Definition Clean (path : string) : string :=
  if String.eqb path "" then "."
  else
    let rooted := HasPrefix path "/" in
    let st := foldl (cleanStep rooted) {| dotdots := 0; kept := [] |}
                    (SplitByte path slash) in
    let out := Join (replicate (dotdots st) ".." ++ rev (kept st)) "/" in
    if rooted then "/" +:+ out
    else if String.eqb out "" then "." else out.

(** The buffer loop of [path.Join]: an element is appended, after a slash
    when the buffer is not empty, unless it is empty and so is the
    buffer. *)
Fixpoint joinBuf (buf : string) (elem : list string) : string :=
  match elem with
  | [] => buf
  | e :: rest =>
      if negb (String.eqb buf "") || negb (String.eqb e "") then
        joinBuf ((if String.eqb buf "" then buf else buf +:+ "/") +:+ e) rest
      else joinBuf buf rest
  end.

(** [path.Join(elem...)]. *)
Definition Join (elem : list string) : string :=
  let size := sum_list (String.length <$> elem) in
  if (size =? 0)%nat then "" else Clean (joinBuf "" elem).

(** [filepath.Join(elem...)] where the separator is [/]: the elements
    from the first non-empty one on, joined and cleaned. *)
Fixpoint filepath_Join (elem : list string) : string :=
  match elem with
  | [] => ""
  | e :: rest =>
      if String.eqb e "" then filepath_Join rest
      else Clean (Strings.Join elem "/")
  end.

(** [filepath.IsAbs(path)] where the separator is [/]. *)
Definition filepath_IsAbs (path : string) : bool := HasPrefix path "/".

End Path.

(** ** The process environment *)

(** An external command: [exec.CommandContext(ctx, name, args...)] with
    [cmd.Dir]. *)
Record Cmd := { cmd_name : string; cmd_args : list string; cmd_dir : string }.

(** What [cmd.CombinedOutput()] returns: the captured output and the error
    (non-zero exit, or the process killed when the context's deadline
    passes). *)
Record ExecResult := { exec_out : string; exec_err : option string }.

(** The effects of a request that outlive it. *)
Inductive Event :=
  | EvExec (cmd : Cmd)
  | EvRemoveAll (dir : string).

Record cachedDoc := { content : string; timestamp : Z }.

(** Everything a call reads from outside the program. Each call is given
    its own environment, so nothing is assumed about how the answers of two
    calls relate. *)
Record Env := {
  os_Stat : string → option bool;        (* [Some isDir], [None] on error *)
  os_ReadFile : string → go_result string;
  os_MkdirTemp : go_result string;
  CombinedOutput : Cmd → ExecResult;
  clockAtLookup : Z;                     (* the clock read by [time.Since] *)
  clockAtStore : Z;                      (* the clock read by [time.Now] *)
  (* the order in which a [range] loop visits the cache *)
  mapRange : gmap string cachedDoc → list (string * cachedDoc);
  (* the order in which a [range] loop visits [allowedFlags] *)
  allowedRange : list string;
  strconv_Quote : string → string        (* the [%q] verb *)
}.

(** A [range] loop visits every entry of the map exactly once. *)
Definition range_ok (env : Env) : Prop :=
  ∀ c, mapRange env c ≡ₚ map_to_list c.

(** ** Constants of [server.go] *)

Module Time.
Definition Nanosecond : Z := 1.
Definition Second : Z := 1000000000 * Nanosecond.
Definition Minute : Z := 60 * Second.
Definition minDuration : Z := - 2 ^ 63.
Definition maxDuration : Z := 2 ^ 63 - 1.
(** [t.Sub(u)]: the difference, saturated to the range of a duration. *)
Definition Sub (t u : Z) : Z := Z.max minDuration (Z.min maxDuration (t - u)).
(** [time.Since(t)] when the clock reads [now]. *)
Definition Since (now t : Z) : Z := Sub now t.
(** [t.Before(u)]. *)
Definition Before (t u : Z) : bool := t <? u.
(** The zero [time.Time]. *)
Definition zero : Z := 0.
End Time.

Definition cacheTTL : Z := 5 * Time.Minute.
Definition maxCacheSize : Z := 500.
Definition cmdTimeout : Z := 30 * Time.Second.

Definition allowedFlags : gmap string bool :=
  {[ "-all" := true; "-src" := true; "-u" := true; "-short" := true;
     "-c" := true ]}.

(** [allowedFlags[f]]: a missing key reads as [false]. *)
Definition flagAllowed (f : string) : bool := default false (allowedFlags !! f).

(** ** Location resolver: [readModuleName], [validatePath], [isStdLib] *)

(** The loop of [readModuleName] over the lines of [go.mod]. *)
Fixpoint findModuleLine (lines : list string) : option string :=
  match lines with
  | [] => None
  | line :: rest =>
      let line := TrimSpace line in
      if negb (HasPrefix line "module ") then findModuleLine rest
      else match Fields line with
           | _ :: name :: _ => Some name
           | _ => findModuleLine rest
           end
  end.

Definition readModuleName (env : Env) (goModPath : string) : go_result string :=
  match os_ReadFile env goModPath with
  | Ok content =>
      match findModuleLine (SplitByte content nl) with
      | Some name => Ok name
      | None => Error ("no module declaration found in " +:+ goModPath)
      end
  | Error err => Error ("failed to read " +:+ goModPath +:+ ": " +:+ err)
  | Panic msg => Panic msg
  end.



Definition errContextRequired : string :=
  "working_dir is required for relative paths (including '.')".
Definition errContextMismatch : string :=
  "absolute path must match working directory when provided".

(** [validatePath] returns the import path or an error and, beside them, a
    list of sub-directories, which is [nil] ([None]) at every [return]. *)
Definition validatePath (env : Env) (pkgPath workingDir : string)
  : go_result string * option (list string) :=
  if HasPrefix pkgPath "." then
    if String.eqb workingDir "" then (Error errContextRequired, None)
    else
      match readModuleName env (Path.filepath_Join [workingDir; "go.mod"]) with
      | Ok moduleName =>
          if String.eqb pkgPath "." then (Ok moduleName, None)
          else
            let relPath := TrimPrefix pkgPath "./" in
            (Ok (Path.Join [moduleName; relPath]), None)
      | Error err =>
          (Error ("failed to read go.mod in working directory: " +:+ err), None)
      | Panic msg => (Panic msg, None)
      end
  else if HasPrefix pkgPath "/" || Path.filepath_IsAbs pkgPath then
    if negb (String.eqb workingDir "") && negb (String.eqb pkgPath workingDir)
    then (Error errContextMismatch, None)
    else
      match readModuleName env (Path.filepath_Join [pkgPath; "go.mod"]) with
      | Ok moduleName => (Ok moduleName, None)
      | Error err => (Error ("failed to read go.mod: " +:+ err), None)
      | Panic msg => (Panic msg, None)
      end
  else (Ok pkgPath, None).

Definition isStdLib (pkg : string) : bool :=
  let '(first, _, _) := CutByte pkg Path.slash in
  negb (Contains first ".").

(** ** Environment provisioner: [createTempProject] *)

Definition createTempProject (env : Env) (tr : list Event) (importPath : string)
  : go_result string * list Event :=
  match os_MkdirTemp env with
  | Ok tempDir =>
      let init := {| cmd_name := "go"; cmd_args := ["mod"; "init"; "godoc-temp"];
                     cmd_dir := tempDir |} in
      let tr := tr ++ [EvExec init] in
      match exec_err (CombinedOutput env init) with
      | Some err =>
          (Error ("failed to initialize go.mod: " +:+ err +:+ NL +:+ "output: "
                  +:+ exec_out (CombinedOutput env init)),
           tr ++ [EvRemoveAll tempDir])
      | None =>
          if negb (isStdLib importPath) then
            let get := {| cmd_name := "go"; cmd_args := ["get"; importPath];
                          cmd_dir := tempDir |} in
            let tr := tr ++ [EvExec get] in
            match exec_err (CombinedOutput env get) with
            | Some err =>
                (Error ("failed to get package " +:+ importPath +:+ ": " +:+ err
                        +:+ NL +:+ "output: "
                        +:+ exec_out (CombinedOutput env get)),
                 tr ++ [EvRemoveAll tempDir])
            | None => (Ok tempDir, tr)
            end
          else (Ok tempDir, tr)
      end
  | Error err => (Error ("failed to create temp directory: " +:+ err), tr)
  | Panic msg => (Panic msg, tr)
  end.

(** ** Cache and invocation engine: [runGoDoc], [formatGoDocError] *)

Record godocServer := { cache : gmap string cachedDoc }.

(** [newGodocServer]: the cache starts empty. *)
Definition newGodocServer : godocServer := {| cache := ∅ |}.

Definition formatGoDocError (output err : string) : string :=
  if Contains output "no such package" || Contains output "is not in std" then
    "package not found:" +:+ NL +:+
    "1. For standard library packages, use just the package name (e.g., 'io', 'net/http')" +:+ NL +:+
    "2. For external packages, ensure they are imported in the module" +:+ NL +:+
    "3. For local packages, provide a relative path (e.g., './pkg') or absolute path" +:+ NL +:+
    "4. Check for typos in the package name" +:+ NL +:+
    "Detail: " +:+ output
  else if Contains output "no such symbol" then
    "symbol not found:" +:+ NL +:+
    "1. Check if the symbol name is correct (case-sensitive)" +:+ NL +:+
    "2. Use -u flag to see unexported symbols" +:+ NL +:+
    "3. Use -all flag to see all package documentation" +:+ NL +:+
    "Detail: " +:+ err
  else if Contains output "build constraints exclude all Go files" then
    "no Go files for current platform; try -all flag or set GOOS/GOARCH: " +:+ err
  else
    "go doc error: " +:+ err +:+ NL +:+ "output: " +:+ output.

(** Line 308. *)
Definition cacheKeyOf (workingDir : string) (args : list string) : string :=
  workingDir +:+ "|" +:+ Join args "|".

(** First critical section (lines 310-319): a live entry is a hit, an
    expired one is deleted. *)
Definition lookupDoc (env : Env) (c : gmap string cachedDoc) (cacheKey : string)
  : option string * gmap string cachedDoc :=
  match c !! cacheKey with
  | Some doc =>
      if Time.Since (clockAtLookup env) (timestamp doc) <? cacheTTL
      then (Some (content doc), c)
      else (None, delete cacheKey c)
  | None => (None, c)
  end.

(** The eviction scan (lines 339-346): [oldestKey] and [oldestTime] after
    the loop has visited the entries in the given order. *)
Definition scanStep (acc : string * Z) (kv : string * cachedDoc) : string * Z :=
  let '(oldestKey, oldestTime) := acc in
  if String.eqb oldestKey "" || Time.Before (timestamp kv.2) oldestTime
  then (kv.1, timestamp kv.2)
  else acc.

Definition scanOldest (order : list (string * cachedDoc)) : string * Z :=
  foldl scanStep ("", Time.zero) order.

Definition oldestKeyOf (env : Env) (c : gmap string cachedDoc) : string :=
  (scanOldest (mapRange env c)).1.

(** Lines 338-348. *)
Definition evictIfFull (env : Env) (c : gmap string cachedDoc)
  : gmap string cachedDoc :=
  if maxCacheSize <=? Z.of_nat (size c) then delete (oldestKeyOf env c) c else c.

(** Second critical section (lines 336-350). *)
Definition storeDoc (env : Env) (c : gmap string cachedDoc)
    (cacheKey content : string) : gmap string cachedDoc :=
  <[cacheKey := {| content := content; timestamp := clockAtStore env |}]>
    (evictIfFull env c).

Definition goDocCmd (workingDir : string) (args : list string) : Cmd :=
  {| cmd_name := "go"; cmd_args := "doc" :: args; cmd_dir := workingDir |}.

Definition runGoDoc (env : Env) (gs : godocServer) (tr : list Event)
    (workingDir : string) (args : list string)
  : go_result string * godocServer * list Event :=
  let cacheKey := cacheKeyOf workingDir args in
  match lookupDoc env (cache gs) cacheKey with
  | (Some content, _) => (Ok content, gs, tr)
  | (None, c) =>
      let cmd := goDocCmd workingDir args in
      let res := CombinedOutput env cmd in
      let tr := tr ++ [EvExec cmd] in
      match exec_err res with
      | Some err =>
          (Error (formatGoDocError (exec_out res) err), {| cache := c |}, tr)
      | None =>
          let content := exec_out res in
          (Ok content, {| cache := storeDoc env c cacheKey content |}, tr)
      end
  end.

(** The two critical sections as atomic operations on the cache. The lock
    is released between them, so the operations of concurrent calls
    interleave: a run of the server is a sequence of them. *)
Inductive CacheOp :=
  | OpLookup (env : Env) (cacheKey : string)
  | OpStore (env : Env) (cacheKey content : string).

Definition opEnv (op : CacheOp) : Env :=
  match op with OpLookup env _ => env | OpStore env _ _ => env end.

Definition applyOp (c : gmap string cachedDoc) (op : CacheOp)
  : gmap string cachedDoc :=
  match op with
  | OpLookup env cacheKey => (lookupDoc env c cacheKey).2
  | OpStore env cacheKey content => storeDoc env c cacheKey content
  end.

Definition runOps (c : gmap string cachedDoc) (ops : list CacheOp)
  : gmap string cachedDoc := foldl applyOp c ops.

(** The cache after each operation of a sequence. *)
Fixpoint cacheStates (c : gmap string cachedDoc) (ops : list CacheOp)
  : list (gmap string cachedDoc) :=
  match ops with
  | [] => []
  | op :: ops => applyOp c op :: cacheStates (applyOp c op) ops
  end.

(** The byte that separates the parts of a cache key. *)
Definition bar : ascii := "|"%char.
Definition hasBar (s : string) : bool := Contains s (String bar "").

(** ** Request handler: [handleGetDoc] *)

(** The arguments of a tool call as the accessors of the request read them:
    an argument that is absent or not of the requested type is [None]. *)
Record CallToolRequest := {
  arg_path : option string;
  arg_target : option string;
  arg_cmd_flags : option (list string);
  arg_working_dir : option string;
  arg_page : option Z;
  arg_page_size : option Z
}.

Definition GetString (arg : option string) (defaultValue : string) : string :=
  default defaultValue arg.
Definition GetInt (arg : option Z) (defaultValue : Z) : Z :=
  default defaultValue arg.
Definition GetStringSlice (arg : option (list string)) (defaultValue : list string)
  : list string := default defaultValue arg.

Inductive CallToolResult :=
  | ToolResultText (text : string)
  | ToolResultError (text : string).

Definition unsupportedFlag (env : Env) (f : string) : string :=
  "unsupported flag " +:+ strconv_Quote env f +:+ " (allowed: " +:+
  Join (allowedRange env) ", " +:+ ")".

(** Lines 152-160: the directory [go doc] runs in, with the events of
    creating it, and the deferred removal of a temporary one. *)
Definition projectDir (env : Env) (tr : list Event) (workingDir pkgPath : string)
  : go_result string * list Event * list Event :=
  if String.eqb workingDir "" then
    match createTempProject env tr pkgPath with
    | (Ok tempDir, tr) => (Ok tempDir, tr, [EvRemoveAll tempDir])
    | (failed, tr) => (failed, tr, [])
    end
  else (Ok workingDir, tr, []).

(** Lines 162-168. *)
Definition goDocArgs (cmdFlags : list string) (pkgPath target : string)
  : list string :=
  cmdFlags ++ [pkgPath] ++ (if String.eqb target "" then [] else [target]).

Definition handleGetDoc (env : Env) (gs : godocServer) (tr : list Event)
    (request : CallToolRequest)
  : go_result CallToolResult * godocServer * list Event :=
  match arg_path request with
  | None => (Ok (ToolResultError "path argument is required"), gs, tr)
  | Some pkgPath =>
  let target := GetString (arg_target request) "" in
  let workingDir := GetString (arg_working_dir request) "" in
  let page := GetInt (arg_page request) 1 in
  let pageSize := GetInt (arg_page_size request) 1000 in
  if negb (String.eqb workingDir "") &&
     negb (default false (os_Stat env workingDir))
  then (Ok (ToolResultError ("invalid working directory: " +:+ workingDir)), gs, tr)
  else
  let cmdFlags := GetStringSlice (arg_cmd_flags request) [] in
  match List.find (λ f, negb (flagAllowed f)) cmdFlags with
  | Some f => (Ok (ToolResultError (unsupportedFlag env f)), gs, tr)
  | None =>
  match validatePath env pkgPath workingDir with
  | (Panic msg, _) => (Panic msg, gs, tr)
  | (Error err, Some subDirs) =>
      (Ok (ToolResultText ("No Go files found in " +:+ pkgPath +:+
                           ", but found Go packages in:" +:+ NL +:+
                           Join subDirs NL)), gs, tr)
  | (Error err, None) => (Ok (ToolResultError err), gs, tr)
  | (Ok pkgPath, _) =>
  match projectDir env tr workingDir pkgPath with
  | (Panic msg, tr, _) => (Panic msg, gs, tr)
  | (Error err, tr, _) =>
      (Ok (ToolResultError ("failed to create temporary project: " +:+ err)), gs, tr)
  | (Ok workingDir, tr, deferred) =>
  match runGoDoc env gs tr workingDir (goDocArgs cmdFlags pkgPath target) with
  | (Panic msg, gs, tr) => (Panic msg, gs, tr ++ deferred)
  | (Error err, gs, tr) => (Ok (ToolResultError err), gs, tr ++ deferred)
  | (Ok doc, gs, tr) =>
      match paginate doc page pageSize with
      | Panic msg => (Panic msg, gs, tr ++ deferred)
      | Error err => (Ok (ToolResultError err), gs, tr ++ deferred)
      | Ok result => (Ok (ToolResultText result), gs, tr ++ deferred)
      end
  end end end end end.

(** The declared bounds of the [page_size] argument (lines 98-103). *)
Definition pageSizeMin : Z := 100.
Definition pageSizeMax : Z := 5000.

(** A sequence of calls of [runGoDoc], one after the other, each with its
    environment, directory and arguments: the server after them. *)
Definition runCalls (gs : godocServer)
    (calls : list (Env * string * list string)) : godocServer :=
  foldl (λ gs call, (runGoDoc call.1.1 gs [] call.1.2 call.2).1.2) gs calls.

(** ** Helpers of the tests *)

(** [strings.IndexByte(s, c)]: the index of the first [c], or [-1]. *)
Fixpoint IndexByte (s : string) (c : ascii) : Z :=
  match s with
  | "" => -1
  | String x s' =>
      if Ascii.eqb x c then 0
      else let i := IndexByte s' c in if i <? 0 then -1 else i + 1
  end.

(** [firstLine] of the test file: the string up to its first newline. *)
Definition firstLine (s : string) : string :=
  let i := IndexByte s nl in
  if 0 <=? i then take_bytes (Z.to_nat i) s else s.

(** ** Example inputs *)

Module Examples.

Definition threeLines : string := "a" +:+ NL +:+ "b" +:+ NL +:+ "c".

Definition goMod : string :=
  "module example.com/app" +:+ NL +:+ NL +:+ "go 1.21" +:+ NL.

(** A machine with a module in [/w] and a [go doc] that prints five
    lines. *)
Definition env : Env := {|
  os_Stat := λ p, if String.eqb p "/w" then Some true else None;
  os_ReadFile := λ p,
    if String.eqb p "/w/go.mod" then Ok goMod
    else Error ("open " +:+ p +:+ ": no such file or directory");
  os_MkdirTemp := Ok "/tmp/godoc-mcp-1";
  CombinedOutput := λ _,
    {| exec_out := threeLines +:+ NL +:+ "d" +:+ NL +:+ "e"; exec_err := None |};
  clockAtLookup := 10;
  clockAtStore := 11;
  mapRange := map_to_list;
  allowedRange := ["-all"; "-src"; "-u"; "-short"; "-c"];
  strconv_Quote := λ s, s
|}.

(** The same machine with a [go doc] that fails. *)
Definition failingEnv : Env := {|
  os_Stat := os_Stat env;
  os_ReadFile := os_ReadFile env;
  os_MkdirTemp := os_MkdirTemp env;
  CombinedOutput := λ _,
    {| exec_out := "doc: no such package"; exec_err := Some "exit status 1" |};
  clockAtLookup := 10;
  clockAtStore := 11;
  mapRange := map_to_list;
  allowedRange := allowedRange env;
  strconv_Quote := strconv_Quote env
|}.

Definition request (pageSize : option Z) : CallToolRequest := {|
  arg_path := Some "./sub/pkg";
  arg_target := None;
  arg_cmd_flags := Some ["-all"];
  arg_working_dir := Some "/w";
  arg_page := None;
  arg_page_size := pageSize
|}.

(** The example machine for a call that looks the cache up when the clock
    reads [tLookup] and stores its document when it reads [tStore]. *)
Definition callEnv (tLookup tStore : Z) : Env := {|
  os_Stat := os_Stat env;
  os_ReadFile := os_ReadFile env;
  os_MkdirTemp := os_MkdirTemp env;
  CombinedOutput := CombinedOutput env;
  clockAtLookup := tLookup;
  clockAtStore := tStore;
  mapRange := map_to_list;
  allowedRange := allowedRange env;
  strconv_Quote := strconv_Quote env
|}.

Definition envAt (t : Z) : Env := callEnv t t.

(** The key of [go doc pkg<i>] run in [/w]. *)
Definition nthKey (i : nat) : string :=
  cacheKeyOf "/w" ["pkg" +:+ pretty (Z.of_nat i)].

Definition nthStore (i : nat) : CacheOp :=
  OpStore (envAt (Z.of_nat i)) (nthKey i) "doc".

(** The cache after 499, and after 500, documents were stored one per
    nanosecond. *)
Definition warmCache : gmap string cachedDoc :=
  runOps ∅ (nthStore <$> seq 1 499).
Definition fullCache : gmap string cachedDoc :=
  applyOp warmCache (nthStore 500).

(** Two calls for the same key that both miss before either stores: the
    lookups of both and the store of the first, then the store of the
    second. *)
Definition racingCalls : list CacheOp :=
  [ OpLookup (callEnv 500 500) (nthKey 500);
    OpLookup (callEnv 500 501) (nthKey 500);
    OpStore (callEnv 500 500) (nthKey 500) "doc" ].
Definition lateStore : CacheOp := OpStore (callEnv 500 501) (nthKey 500) "doc".

(** The example machine where every file reads as [content]. *)
Definition fileEnv (content : string) : Env := {|
  os_Stat := os_Stat env;
  os_ReadFile := λ _, Ok content;
  os_MkdirTemp := os_MkdirTemp env;
  CombinedOutput := CombinedOutput env;
  clockAtLookup := clockAtLookup env;
  clockAtStore := clockAtStore env;
  mapRange := map_to_list;
  allowedRange := allowedRange env;
  strconv_Quote := strconv_Quote env
|}.

(** A [go.mod] with a comment line, a declaration followed by a comment and
    a second declaration. *)
Definition commentedGoMod : string :=
  "// Code generated" +:+ NL +:+
  "module github.com/test/pkg // some comment" +:+ NL +:+
  "module other" +:+ NL.

(** The no-break space [U+00A0] and the ideographic space [U+3000], in
    UTF-8. *)
Definition nbsp : string := String "194" (String "160" "").
Definition ideographicSpace : string :=
  String "227" (String "128" (String "128" "")).

(** A [go.mod] whose declaration is indented by a tab and a no-break
    space, and followed by an ideographic space and a comment. *)
Definition indentedGoMod : string :=
  "// Code generated" +:+ NL +:+
  String "009" nbsp +:+ "module github.com/test/pkg" +:+ ideographicSpace +:+
    "// some comment " +:+ NL +:+
  "module other" +:+ NL.

(** A [go.mod] whose keyword is followed by a tab. *)
Definition tabbedGoMod : string :=
  "go 1.21" +:+ NL +:+ String "m" (String "o" (String "d" (String "u"
    (String "l" (String "e" (String "009" "example.com/app")))))) +:+ NL.

(** A request with a flag that is not on the allow-list, and one for a
    standard-library symbol with no working directory. *)
Definition badFlagRequest : CallToolRequest := {|
  arg_path := Some "io"; arg_target := None;
  arg_cmd_flags := Some ["-all"; "-overlay"];
  arg_working_dir := None; arg_page := None; arg_page_size := None |}.

Definition stdlibRequest : CallToolRequest := {|
  arg_path := Some "io"; arg_target := Some "Reader";
  arg_cmd_flags := Some ["-short"];
  arg_working_dir := None; arg_page := None; arg_page_size := None |}.

End Examples.

(** * Properties *)

(** ** Integer arithmetic *)

(** Closes goals that say a value is in the range of [int]. *)
Ltac int_range :=
  unfold GoInt.in_range, GoInt.minInt, GoInt.maxInt in *; lia.

Section GoIntFacts.
Import GoInt.

Lemma wrap_id z : in_range z → wrap z = z.
Proof.
  unfold in_range, wrap, minInt, maxInt. intros Hz.
  rewrite Z.mod_small by lia. lia.
Qed.

Lemma wrap_in_range z : in_range (wrap z).
Proof.
  unfold in_range, wrap, minInt, maxInt.
  pose proof (Z.mod_pos_bound (z + 2 ^ 63) (2 ^ 64)). lia.
Qed.

(** A result that leaves the range upwards by less than [2^64] comes
    back negative. *)
Lemma wrap_over z : maxInt < z < 2 ^ 64 → wrap z = z - 2 ^ 64.
Proof.
  unfold wrap, maxInt. intros Hz.
  replace (z + 2 ^ 63) with ((z - 2 ^ 63) + 1 * 2 ^ 64) by lia.
  rewrite Z.mod_add by lia. rewrite Z.mod_small by lia. lia.
Qed.

Lemma wrap_add_wrap a b : wrap (wrap a + b) = wrap (a + b).
Proof.
  unfold wrap. f_equal.
  replace ((a + 2 ^ 63) mod 2 ^ 64 - 2 ^ 63 + b + 2 ^ 63)
    with ((a + 2 ^ 63) mod 2 ^ 64 + b) by lia.
  rewrite Z.add_mod_idemp_l by lia. f_equal; lia.
Qed.

Lemma sub_add_1 a b : sub (add a b) 1 = wrap (a + b - 1).
Proof.
  unfold sub, add. replace (wrap (a + b) - 1) with (wrap (a + b) + (-1)) by lia.
  rewrite wrap_add_wrap. f_equal; lia.
Qed.

(** Lines 192-195 compute the ceiling of [totalLines / pageSize] for every
    positive page size, although the sum may wrap around: when it does,
    the page size exceeds the number of lines and the clamp to 1 gives the
    right answer. *)
Lemma totalPagesOf_ceil L ps :
  1 <= L <= 2 ^ 62 → 1 <= ps <= maxInt →
  totalPagesOf L ps = Some ((L + ps - 1) / ps).
Proof.
  intros HL Hps. unfold totalPagesOf, div. unfold maxInt in Hps.
  destruct (Z.eqb_spec ps 0) as [|_]; [lia|].
  rewrite sub_add_1. f_equal.
  destruct (Z_le_gt_dec (L + ps - 1) maxInt) as [Hfit|Hover].
  - unfold maxInt in Hfit.
    rewrite (wrap_id (L + ps - 1)) by int_range.
    rewrite Z.quot_div_nonneg by lia.
    assert (1 <= (L + ps - 1) / ps) by (apply Z.div_le_lower_bound; lia).
    assert ((L + ps - 1) / ps <= L + ps - 1)
      by (apply Z.div_le_upper_bound; nia).
    rewrite wrap_id by int_range.
    destruct (Z.ltb_spec ((L + ps - 1) / ps) 1); [lia|done].
  - unfold maxInt in Hover.
    rewrite (wrap_over (L + ps - 1)) by (unfold maxInt; lia).
    set (v := L + ps - 1 - 2 ^ 64).
    assert (Hv : - (2 * ps) < v <= 0) by (unfold v; lia).
    assert (Hq : -1 <= v ÷ ps <= 0).
    { rewrite <- (Z.opp_involutive v), Z.quot_opp_l by lia.
      assert (0 <= - v ÷ ps) by (apply Z.quot_pos; lia).
      assert (- v ÷ ps <= 1).
      { rewrite Z.quot_div_nonneg by lia.
        apply Z.lt_succ_r, Z.div_lt_upper_bound; lia. }
      lia. }
    rewrite wrap_id by int_range.
    destruct (Z.ltb_spec (v ÷ ps) 1); [|lia].
    apply Z.div_unique with (r := L - 1); lia.
Qed.

Lemma ceilDiv_eq a b : 0 < b → (a + b - 1) / b = ceilDiv a b.
Proof.
  intros Hb. unfold ceilDiv. symmetry.
  pose proof (Z.div_mod (- a) b ltac:(lia)) as Hdm.
  pose proof (Z.mod_pos_bound (- a) b Hb) as Hm.
  apply Z.div_unique with (r := b - 1 - (- a) mod b); lia.
Qed.

Lemma ceil_spec L ps :
  1 <= L → 1 <= ps →
  let T := (L + ps - 1) / ps in 1 <= T ∧ (T - 1) * ps < L <= T * ps.
Proof.
  intros HL Hps T.
  pose proof (Z.div_mod (L + ps - 1) ps ltac:(lia)) as Hdm.
  pose proof (Z.mod_pos_bound (L + ps - 1) ps ltac:(lia)) as Hm.
  fold T in Hdm. split; [apply Z.div_le_lower_bound; lia|nia].
Qed.

End GoIntFacts.

(** ** Splitting and joining *)

Section StringFacts.

Lemma SplitByte_nonempty s sep : SplitByte s sep ≠ [].
Proof.
  destruct s as [|c s]; simpl; [done|].
  destruct (Ascii.eqb c sep); [done|]. by destruct (SplitByte s sep).
Qed.

Lemma SplitByte_length s sep :
  (1 <= length (SplitByte s sep) <= S (String.length s))%nat.
Proof.
  induction s as [|c s IH]; simpl; [lia|].
  destruct (Ascii.eqb c sep); simpl; [lia|].
  destruct (SplitByte s sep); simpl in *; lia.
Qed.

(** Joining the pieces with the separator gives the string back. *)
Lemma Join_SplitByte s sep : Join (SplitByte s sep) (String sep "") = s.
Proof.
  induction s as [|c s IH]; simpl; [done|].
  pose proof (SplitByte_nonempty s sep) as Hne.
  destruct (Ascii.eqb_spec c sep) as [->|_].
  - destruct (SplitByte s sep) as [|l ls]; [done|].
    simpl in *. by rewrite IH.
  - destruct (SplitByte s sep) as [|l ls]; [done|].
    destruct ls as [|l' ls]; simpl in *; by rewrite <- IH.
Qed.

Lemma Join_cons e rest sep :
  rest ≠ [] → Join (e :: rest) sep = e +:+ sep +:+ Join rest sep.
Proof. by destruct rest. Qed.

Lemma string_app_assoc (a b c : string) : (a +:+ b) +:+ c = a +:+ (b +:+ c).
Proof.
  induction a as [|x a IH]; [done|].
  change (String x ((a +:+ b) +:+ c) = String x (a +:+ (b +:+ c))).
  by rewrite IH.
Qed.

Lemma string_app_nil_r (a : string) : a +:+ "" = a.
Proof.
  induction a as [|x a IH]; [done|].
  change (String x (a +:+ "") = String x a). by rewrite IH.
Qed.

Lemma Join_app l1 l2 sep :
  l1 ≠ [] → l2 ≠ [] →
  Join (l1 ++ l2) sep = Join l1 sep +:+ sep +:+ Join l2 sep.
Proof.
  intros H1 H2. induction l1 as [|e l1 IH]; [done|].
  destruct l1 as [|e' l1].
  - simpl app. by rewrite Join_cons.
  - rewrite <- app_comm_cons, Join_cons by done.
    rewrite IH by done. rewrite (Join_cons e (e' :: l1)) by done.
    by rewrite !string_app_assoc.
Qed.

(** Joining pages that were themselves joined from whole, non-empty runs
    of lines is joining all the lines. *)
Lemma Join_concat (ls : list (list string)) sep :
  Forall (λ l, l ≠ []) ls →
  Join ((λ l, Join l sep) <$> ls) sep = Join (concat ls) sep.
Proof.
  induction 1 as [|l ls Hl Hls IH]; [done|].
  destruct ls as [|l' ls]; simpl.
  - by rewrite app_nil_r.
  - rewrite Join_app; [|done|].
    + simpl in IH. by rewrite IH.
    + inversion Hls; subst. by destruct l'.
Qed.

(** Cutting a list into consecutive runs of [n] elements. *)
Lemma concat_chunks {A} (n k : nat) (l : list A) :
  (length l <= k * n)%nat →
  concat ((λ i, take n (drop (i * n) l)) <$> seq 0 k) = l.
Proof.
  revert l. induction k as [|k IH]; intros l Hl.
  - simpl in *. by destruct l; simpl in *; [|lia].
  - simpl seq. rewrite fmap_cons. simpl concat. simpl drop.
    rewrite <- (take_drop n l) at 2. f_equal.
    rewrite <- (IH (drop n l)) by (rewrite length_drop; lia).
    f_equal. rewrite <- seq_shift, <- list_fmap_compose.
    apply list_fmap_ext. intros _ i _. simpl.
    by rewrite drop_drop, (Nat.add_comm n).
Qed.

End StringFacts.

(** ** The paginator *)

Section PaginateFacts.
Import GoInt.

Variables (content : string) (pageSize : Z).
Hypothesis pageSize_pos : 1 <= pageSize <= maxInt.
(** No string a 64-bit process can hold is longer than this. *)
Hypothesis content_fits : Z.of_nat (String.length content) < 2 ^ 62.

Let lines := SplitByte content nl.
Let totalLines := Z.of_nat (length lines).
Let totalPages := (totalLines + pageSize - 1) / pageSize.

Lemma totalLines_bounds : 1 <= totalLines <= 2 ^ 62.
Proof.
  pose proof (SplitByte_length content nl). unfold totalLines, lines. lia.
Qed.

Lemma totalPages_eq : totalPagesOf totalLines pageSize = Some totalPages.
Proof. apply totalPagesOf_ceil; [apply totalLines_bounds|done]. Qed.

Lemma totalPages_spec :
  1 <= totalPages ∧ (totalPages - 1) * pageSize < totalLines <= totalPages * pageSize.
Proof. apply ceil_spec; [apply totalLines_bounds|lia]. Qed.

Lemma pageStart_eq page :
  1 <= page <= totalPages → pageStart page pageSize = (page - 1) * pageSize.
Proof.
  intros Hp. pose proof totalLines_bounds. pose proof totalPages_spec.
  unfold maxInt in *.
  assert (0 <= (page - 1) * pageSize <= (totalPages - 1) * pageSize) by nia.
  unfold pageStart, mul, sub.
  rewrite (wrap_id (page - 1)) by (unfold in_range, minInt, maxInt; nia).
  apply wrap_id. int_range.
Qed.

Lemma pageEnd_eq page :
  1 <= page <= totalPages →
  pageEnd page pageSize totalLines = Z.min (page * pageSize) totalLines.
Proof.
  intros Hp. pose proof totalLines_bounds. pose proof totalPages_spec.
  unfold pageEnd. rewrite pageStart_eq by done. unfold add, maxInt in *.
  assert (0 <= (page - 1) * pageSize <= (totalPages - 1) * pageSize) by nia.
  assert (page * pageSize <= 2 ^ 63 - 1).
  { destruct (Z.eq_dec page 1) as [->|]; [lia|].
    assert (pageSize <= (page - 1) * pageSize) by nia. lia. }
  replace ((page - 1) * pageSize + pageSize) with (page * pageSize) by lia.
  rewrite wrap_id by (unfold in_range, minInt, maxInt; nia).
  destruct (Z.ltb_spec totalLines (page * pageSize)); lia.
Qed.

Lemma slice_page page :
  1 <= page <= totalPages →
  slice lines (pageStart page pageSize) (pageEnd page pageSize totalLines)
  = Some (take (Z.to_nat pageSize)
               (drop (Z.to_nat ((page - 1) * pageSize)) lines)).
Proof.
  intros Hp. pose proof totalLines_bounds. pose proof totalPages_spec.
  rewrite pageEnd_eq, pageStart_eq by done.
  assert (0 <= (page - 1) * pageSize <= (totalPages - 1) * pageSize) by nia.
  unfold slice. fold totalLines.
  destruct (Z.leb_spec 0 ((page - 1) * pageSize)); [|lia].
  destruct (Z.leb_spec ((page - 1) * pageSize)
              (Z.min (page * pageSize) totalLines)); [|lia].
  destruct (Z.leb_spec (Z.min (page * pageSize) totalLines) totalLines); [|lia].
  simpl. f_equal.
  destruct (Z.le_gt_cases (page * pageSize) totalLines).
  - f_equal. lia.
  - rewrite !take_ge; [done| |]; rewrite length_drop; unfold totalLines in *; lia.
Qed.

Lemma pageLines_eq page :
  1 <= page <= totalPages →
  pageLines content page pageSize
  = take (Z.to_nat pageSize) (drop (Z.to_nat ((page - 1) * pageSize)) lines).
Proof.
  intros Hp. unfold pageLines. fold lines totalLines. by rewrite slice_page.
Qed.

Lemma pageLines_nonempty page :
  1 <= page <= totalPages → pageLines content page pageSize ≠ [].
Proof.
  intros Hp. pose proof totalLines_bounds. pose proof totalPages_spec.
  assert (0 <= (page - 1) * pageSize <= (totalPages - 1) * pageSize) by nia.
  rewrite pageLines_eq by done. intros Hnil.
  apply (f_equal length) in Hnil. rewrite length_take, length_drop in Hnil.
  simpl in Hnil. unfold totalLines in *. lia.
Qed.

(** What [paginate] returns for a page in range, and for one beyond. *)
Lemma paginate_in_range page :
  clampPage page <= totalPages →
  paginate content page pageSize =
  let p := clampPage page in
  Ok (metadata p totalPages (pageStart p pageSize)
        (pageEnd p pageSize totalLines) totalLines
      +:+ NL +:+ NL +:+ Join (pageLines content p pageSize) NL).
Proof.
  intros Hp. cbv zeta.
  assert (1 <= clampPage page <= totalPages) as Hp'.
  { split; [|done]. unfold clampPage. destruct (Z.ltb_spec page 1); lia. }
  unfold paginate. fold lines totalLines. rewrite totalPages_eq.
  destruct (Z.ltb_spec totalPages (clampPage page)); [lia|].
  rewrite slice_page, pageLines_eq by done. done.
Qed.

Lemma paginate_beyond page :
  totalPages < clampPage page →
  paginate content page pageSize =
  Error ("page " +:+ pretty (clampPage page) +:+ " exceeds total pages " +:+
         pretty totalPages).
Proof.
  intros Hp. unfold paginate. fold lines totalLines. rewrite totalPages_eq.
  destruct (Z.ltb_spec totalPages (clampPage page)); [done|lia].
Qed.

Lemma pageNumbers_pages :
  (λ p, pageLines content p pageSize) <$> pageNumbers totalPages
  = (λ i, take (Z.to_nat pageSize) (drop (i * Z.to_nat pageSize) lines))
      <$> seq 0 (Z.to_nat totalPages).
Proof.
  unfold pageNumbers. rewrite <- list_fmap_compose.
  apply list_fmap_ext. intros j i Hi. simpl.
  apply lookup_seq in Hi as [-> Hj]. simpl.
  rewrite pageLines_eq by lia. do 2 f_equal. nia.
Qed.

Lemma pages_cover_lines :
  concat ((λ p, pageLines content p pageSize) <$> pageNumbers totalPages) = lines.
Proof.
  rewrite pageNumbers_pages. apply concat_chunks.
  pose proof totalPages_spec. unfold totalLines in *. nia.
Qed.

Lemma pages_roundtrip :
  Join ((λ p, Join (pageLines content p pageSize) NL) <$> pageNumbers totalPages) NL
  = content.
Proof.
  rewrite (list_fmap_compose (λ p, pageLines content p pageSize)
                             (λ l, Join l NL)).
  rewrite Join_concat.
  - rewrite pages_cover_lines. apply Join_SplitByte.
  - apply Forall_fmap, Forall_forall. intros p Hp. simpl.
    apply pageLines_nonempty. unfold pageNumbers in Hp.
    apply list_elem_of_fmap in Hp as (i & -> & Hi).
    apply elem_of_seq in Hi. lia.
Qed.

End PaginateFacts.

(** C5. For a positive page size and a content of [L] lines (and fewer than
    [2^62] bytes, as every string in memory has), [paginate] computes
    [totalPages = ceil(L / pageSize)], which is at least 1. Page [p] of [1..totalPages] succeeds and
    shows the whole lines [start+1 .. end] with [start = (p-1) * pageSize]
    and [end = min (p * pageSize, L)]: the range is not empty, the first
    page starts at line 1, the last one ends at line [L], and each page
    starts on the line after the one its predecessor ends on. The pages
    together hold exactly the lines of the content, and their content
    portions joined with a newline are the content. *)
Theorem paginate_pages_roundtrip (content : string) (pageSize : Z) :
  1 <= pageSize <= GoInt.maxInt →
  Z.of_nat (String.length content) < 2 ^ 62 →
  let lines := SplitByte content nl in
  let L := Z.of_nat (length lines) in
  let totalPages := ceilDiv L pageSize in
    totalPagesOf L pageSize = Some totalPages ∧
    1 <= totalPages ∧ (totalPages - 1) * pageSize < L <= totalPages * pageSize ∧
    (∀ p, 1 <= p <= totalPages →
       let start := pageStart p pageSize in
       let end_ := pageEnd p pageSize L in
       start = (p - 1) * pageSize ∧ end_ = Z.min (p * pageSize) L ∧
       start < end_ ∧
       (p < totalPages → pageStart (p + 1) pageSize = end_) ∧
       slice lines start end_ = Some (pageLines content p pageSize) ∧
       paginate content p pageSize =
         Ok (metadata p totalPages start end_ L +:+ NL +:+ NL +:+
             Join (pageLines content p pageSize) NL)) ∧
    pageStart 1 pageSize = 0 ∧
    pageEnd totalPages pageSize L = L ∧
    concat ((λ p, pageLines content p pageSize) <$> pageNumbers totalPages)
      = lines ∧
    Join ((λ p, Join (pageLines content p pageSize) NL) <$> pageNumbers totalPages)
      NL = content.
Proof.
  intros Hps Hlen lines L.
  rewrite <- (ceilDiv_eq L pageSize) by lia.
  set (T := (L + pageSize - 1) / pageSize). cbv zeta.
  pose proof (totalPages_spec content pageSize Hps Hlen) as HT.
  pose proof (totalLines_bounds content pageSize Hlen) as HL.
  fold lines L T in HT, HL. destruct HT as (HT1 & HT2).
  split; [by apply totalPages_eq|].
  do 2 (split; [done|]). split; [|split; [|split; [|split]]].
  - intros p Hp. cbv zeta.
    pose proof (pageStart_eq content pageSize Hps Hlen p Hp) as Hs.
    pose proof (pageEnd_eq content pageSize Hps Hlen p Hp) as He.
    fold lines L in He.
    assert (0 <= (p - 1) * pageSize <= (T - 1) * pageSize) by nia.
    split; [exact Hs|]. split; [exact He|]. split; [lia|].
    split; [|split].
    + intros Hlt. rewrite (pageStart_eq content pageSize Hps Hlen)
        by (fold lines L T; lia).
      assert (p * pageSize <= (T - 1) * pageSize) by nia. lia.
    + rewrite (pageLines_eq content pageSize Hps Hlen p Hp).
      apply (slice_page content pageSize Hps Hlen p Hp).
    + rewrite (paginate_in_range content pageSize Hps Hlen p);
        fold lines L T; unfold clampPage; destruct (Z.ltb_spec p 1);
        done || lia.
  - by rewrite (pageStart_eq content pageSize Hps Hlen) by (fold lines L T; lia).
  - rewrite (pageEnd_eq content pageSize Hps Hlen) by (fold lines L T; lia).
    fold lines L T. lia.
  - apply (pages_cover_lines content pageSize Hps Hlen).
  - apply (pages_roundtrip content pageSize Hps Hlen).
Qed.

(** C6. For a positive page size (and a content of fewer than [2^62]
    bytes), [paginate] returns an error exactly when the page number, after values below 1 have been raised to 1, exceeds
    [totalPages = ceil(lineCount / pageSize)]; a page number below 1 is
    served as page 1, never rejected; and page 0 gives what page 1 gives,
    whatever the content and the page size. *)
Theorem paginate_error_iff (content : string) (page pageSize : Z) :
  1 <= pageSize <= GoInt.maxInt →
  Z.of_nat (String.length content) < 2 ^ 62 →
  let L := Z.of_nat (length (SplitByte content nl)) in
  let totalPages := Z.max 1 (ceilDiv L pageSize) in
  totalPagesOf L pageSize = Some totalPages ∧
  (is_error (paginate content page pageSize) = true ↔
     totalPages < clampPage page) ∧
  (is_error (paginate content page pageSize) = false →
     ∃ out, paginate content page pageSize = Ok out) ∧
  (page < 1 →
     paginate content page pageSize = paginate content 1 pageSize ∧
     ∃ out, paginate content page pageSize = Ok out) ∧
  (∀ content' n, paginate content' 0 n = paginate content' 1 n).
Proof.
  intros Hps Hlen L. rewrite <- (ceilDiv_eq L pageSize) by lia.
  intros totalPages.
  pose proof (totalPages_spec content pageSize Hps Hlen) as (HT1 & _).
  fold L in HT1.
  assert (totalPages = (L + pageSize - 1) / pageSize) as HT by (unfold totalPages; lia).
  assert (∀ pg, totalPages < clampPage pg ∨ clampPage pg <= totalPages) as Hcases
    by (intros; lia).
  assert (∀ pg, clampPage pg <= totalPages →
            ∃ out, paginate content pg pageSize = Ok out) as Hok.
  { intros pg Hpg. rewrite (paginate_in_range content pageSize Hps Hlen pg);
      [by eexists|fold L; lia]. }
  assert (∀ pg, totalPages < clampPage pg →
            is_error (paginate content pg pageSize) = true) as Herr.
  { intros pg Hpg. rewrite (paginate_beyond content pageSize Hps Hlen pg);
      [done|fold L; lia]. }
  split; [rewrite HT; by apply totalPages_eq|].
  split; [split|split; [|split]].
  - intros Hiserr. destruct (Hcases page) as [|Hin]; [done|].
    destruct (Hok page Hin) as [out Hout]. by rewrite Hout in Hiserr.
  - apply Herr.
  - intros Hne. destruct (Hcases page) as [Hout|Hin]; [|by apply Hok].
    apply Herr in Hout. congruence.
  - intros Hlt. split.
    + unfold paginate, clampPage. by destruct (Z.ltb_spec page 1); [|lia].
    + apply Hok. unfold clampPage. destruct (Z.ltb_spec page 1); lia.
  - done.
Qed.

Lemma paginate_pages_roundtrip_witness :
  (1 <= 2 <= GoInt.maxInt) ∧
  Z.of_nat (String.length Examples.threeLines) < 2 ^ 62 ∧
  totalPagesOf 3 2 = Some 2 ∧
  pageStart 2 2 = pageEnd 1 2 3 ∧
  paginate Examples.threeLines 2 2 =
    Ok ("Page 2 of 2 (showing lines 3-3 of 3)" +:+ NL +:+ NL +:+ "c") ∧
  Join ((λ p, Join (pageLines Examples.threeLines p 2) NL) <$> pageNumbers 2) NL
    = Examples.threeLines.
Proof.
  assert (1 <= 2 <= GoInt.maxInt) as Hps by (unfold GoInt.maxInt; lia).
  assert (Z.of_nat (String.length Examples.threeLines) < 2 ^ 62) as Hlen
    by (vm_compute; reflexivity).
  destruct (paginate_pages_roundtrip Examples.threeLines 2 Hps Hlen)
    as (HT & _ & _ & Hpages & _ & _ & _ & Hjoin).
  destruct (Hpages 1 ltac:(vm_compute; split; discriminate))
    as (_ & _ & _ & Hnext & _ & _).
  destruct (Hpages 2 ltac:(vm_compute; split; discriminate))
    as (_ & _ & _ & _ & _ & Hpage).
  split; [exact Hps|]. split; [exact Hlen|]. split; [exact HT|].
  split; [apply Hnext; reflexivity|]. split; [exact Hpage|exact Hjoin].
Defined.

Lemma paginate_error_iff_witness :
  (1 <= 2 <= GoInt.maxInt) ∧
  Z.of_nat (String.length Examples.threeLines) < 2 ^ 62 ∧
  (is_error (paginate Examples.threeLines 3 2) = true ↔ 2 < 3) ∧
  paginate Examples.threeLines (-4) 2 = paginate Examples.threeLines 1 2.
Proof.
  assert (1 <= 2 <= GoInt.maxInt) as Hps by (unfold GoInt.maxInt; lia).
  assert (Z.of_nat (String.length Examples.threeLines) < 2 ^ 62) as Hlen
    by (vm_compute; reflexivity).
  split; [exact Hps|]. split; [exact Hlen|]. split.
  - exact (proj1 (proj2 (paginate_error_iff Examples.threeLines 3 2 Hps Hlen))).
  - exact (proj1 (proj1 (proj2 (proj2 (proj2
             (paginate_error_iff Examples.threeLines (-4) 2 Hps Hlen))))
             ltac:(reflexivity))).
Defined.

(** C10. For the empty content and a positive page size, page 1 succeeds:
    the empty string splits into one (empty) line, the total page count is
    1, and the page shows lines 1-1 of 1. *)
Theorem paginate_empty_content (pageSize : Z) :
  1 <= pageSize <= GoInt.maxInt →
  SplitByte "" nl = [""] ∧
  totalPagesOf 1 pageSize = Some 1 ∧
  paginate "" 1 pageSize =
    Ok ("Page 1 of 1 (showing lines 1-1 of 1)" +:+ NL +:+ NL).
Proof.
  intros Hps.
  assert (Z.of_nat (String.length "") < 2 ^ 62) as Hlen by done.
  assert ((1 + pageSize - 1) / pageSize = 1) as HT.
  { replace (1 + pageSize - 1) with (1 * pageSize) by lia.
    apply Z.div_mul. lia. }
  split; [done|]. split.
  - rewrite <- HT at 2. apply (totalPages_eq "" pageSize Hps Hlen).
  - rewrite (paginate_in_range "" pageSize Hps Hlen 1); simpl length;
      change (Z.of_nat 1) with 1; rewrite HT; [|done].
    cbv zeta. change (clampPage 1) with 1.
    rewrite (pageStart_eq "" pageSize Hps Hlen 1),
            (pageLines_eq "" pageSize Hps Hlen 1)
      by (simpl length; change (Z.of_nat 1) with 1; lia).
    pose proof (pageEnd_eq "" pageSize Hps Hlen 1) as He.
    simpl length in He. change (Z.of_nat 1) with 1 in He.
    rewrite He by lia.
    replace (Z.min (1 * pageSize) 1) with 1 by lia.
    replace ((1 - 1) * pageSize) with 0 by lia. change (Z.to_nat 0) with 0%nat.
    rewrite take_ge by (simpl; lia). vm_compute. reflexivity.
Qed.

Lemma paginate_empty_content_witness :
  (1 <= 1000 <= GoInt.maxInt) ∧
  paginate "" 1 1000 = Ok ("Page 1 of 1 (showing lines 1-1 of 1)" +:+ NL +:+ NL).
Proof.
  assert (1 <= 1000 <= GoInt.maxInt) as Hps by (unfold GoInt.maxInt; lia).
  split; [exact Hps|].
  exact (proj2 (proj2 (paginate_empty_content 1000 Hps))).
Defined.

Section PaginateFaults.
Import GoInt.

Variables (content : string) (page pageSize : Z).
Hypothesis content_fits : Z.of_nat (String.length content) < 2 ^ 62.

Lemma paginate_zero_pageSize :
  paginate content page 0 = Panic "runtime error: integer divide by zero".
Proof. done. Qed.

(** With a negative page size the page count is clamped to 1 and the
    slice expression of page 1 has a negative upper bound. *)
Lemma paginate_negative_pageSize :
  minInt <= pageSize < 0 → page <= 1 →
  paginate content page pageSize =
  Panic "runtime error: slice bounds out of range".
Proof.
  intros Hps Hpage. unfold minInt in Hps.
  pose proof (totalLines_bounds content pageSize content_fits) as HL.
  set (L := Z.of_nat (length (SplitByte content nl))) in *.
  assert (totalPagesOf L pageSize = Some 1) as HT.
  { unfold totalPagesOf, div.
    destruct (Z.eqb_spec pageSize 0) as [|_]; [lia|].
    rewrite sub_add_1.
    rewrite (wrap_id (L + pageSize - 1))
      by int_range.
    assert (- 2 ^ 62 <= (L + pageSize - 1) ÷ pageSize <= 1) as Hq.
    { replace ((L + pageSize - 1) ÷ pageSize)
        with (- ((L + pageSize - 1) ÷ - pageSize))
        by (rewrite <- Z.quot_opp_r by lia; f_equal; lia).
      destruct (Z.le_gt_cases 0 (L + pageSize - 1)) as [Hv|Hv].
      - assert (0 <= (L + pageSize - 1) ÷ - pageSize) by (apply Z.quot_pos; lia).
        assert ((L + pageSize - 1) ÷ - pageSize <= L + pageSize - 1).
        { rewrite Z.quot_div_nonneg by lia.
          apply Z.div_le_upper_bound; nia. }
        lia.
      - replace ((L + pageSize - 1) ÷ - pageSize)
          with (- (- (L + pageSize - 1) ÷ - pageSize))
          by (rewrite <- Z.quot_opp_l by lia; f_equal; lia).
        assert (0 <= - (L + pageSize - 1) ÷ - pageSize)
          by (apply Z.quot_pos; lia).
        assert (- (L + pageSize - 1) ÷ - pageSize <= 1).
        { rewrite Z.quot_div_nonneg by lia.
          apply Z.lt_succ_r, Z.div_lt_upper_bound; lia. }
        lia. }
    rewrite wrap_id by int_range.
    destruct (Z.ltb_spec ((L + pageSize - 1) ÷ pageSize) 1); f_equal; lia. }
  unfold paginate. fold L. rewrite HT.
  assert (clampPage page = 1) as ->
    by (unfold clampPage; destruct (Z.ltb_spec page 1); lia).
  change (1 <? 1) with false. cbv iota.
  assert (pageStart 1 pageSize = 0) as Hs by done.
  assert (pageEnd 1 pageSize L = pageSize) as He.
  { unfold pageEnd. rewrite Hs. unfold add. rewrite Z.add_0_l.
    rewrite wrap_id by int_range.
    destruct (Z.ltb_spec L pageSize); lia. }
  rewrite Hs, He. unfold slice.
  destruct (Z.leb_spec 0 pageSize); [lia|]. done.
Qed.

End PaginateFaults.

(** The handler hands the page and page size of the request to [paginate]
    as they are. *)
Lemma handleGetDoc_paginates env gs tr request pkgPath resolved dir tr1
    deferred doc gs' tr2 :
  let workingDir := GetString (arg_working_dir request) "" in
  let cmdFlags := GetStringSlice (arg_cmd_flags request) [] in
  let target := GetString (arg_target request) "" in
  arg_path request = Some pkgPath →
  (workingDir = "" ∨ os_Stat env workingDir = Some true) →
  forallb flagAllowed cmdFlags = true →
  validatePath env pkgPath workingDir = (Ok resolved, None) →
  projectDir env tr workingDir resolved = (Ok dir, tr1, deferred) →
  runGoDoc env gs tr1 dir (goDocArgs cmdFlags resolved target) = (Ok doc, gs', tr2) →
  handleGetDoc env gs tr request =
  (match paginate doc (GetInt (arg_page request) 1)
                      (GetInt (arg_page_size request) 1000) with
   | Ok result => Ok (ToolResultText result)
   | Error err => Ok (ToolResultError err)
   | Panic msg => Panic msg
   end, gs', tr2 ++ deferred).
Proof.
  intros workingDir cmdFlags target Hpath Hwd Hflags Hvalid Hproj Hrun.
  unfold handleGetDoc. rewrite Hpath. fold workingDir cmdFlags target.
  assert (negb (String.eqb workingDir "") &&
          negb (default false (os_Stat env workingDir)) = false) as ->.
  { destruct Hwd as [->| ->]; [done|]. simpl. by rewrite andb_false_r. }
  assert (List.find (λ f, negb (flagAllowed f)) cmdFlags = None) as ->.
  { clear -Hflags. induction cmdFlags as [|f fs IH]; [done|].
    simpl in *. apply andb_true_iff in Hflags as [-> Hfs]. simpl. by apply IH. }
  rewrite Hvalid, Hproj, Hrun.
  by destruct (paginate doc _ _).
Qed.

(** C9. [paginate] is total exactly for positive page sizes. With
    [pageSize >= 1] both divisions by the page size are defined and the call
    returns a page or an error, never a fault. With [pageSize = 0] every call
    faults on the division, and with [pageSize < 0] every call for the first
    page faults on the slice expression. [handleGetDoc] reads [page_size]
    with the default 1000 and passes the value on as it is: nothing between
    the read and the call to [paginate] brings it into the declared range
    of 100 to 5000. *)
Theorem paginate_total_iff_positive_pageSize :
  (∀ content page pageSize,
     1 <= pageSize <= GoInt.maxInt →
     Z.of_nat (String.length content) < 2 ^ 62 →
     is_Some (totalPagesOf (Z.of_nat (length (SplitByte content nl))) pageSize) ∧
     is_fault (paginate content page pageSize) = false) ∧
  (∀ content page, is_fault (paginate content page 0) = true) ∧
  (∀ content page pageSize,
     GoInt.minInt <= pageSize < 0 → page <= 1 →
     Z.of_nat (String.length content) < 2 ^ 62 →
     is_fault (paginate content page pageSize) = true) ∧
  (∀ env gs tr request pkgPath resolved dir tr1 deferred doc gs' tr2,
     let workingDir := GetString (arg_working_dir request) "" in
     let cmdFlags := GetStringSlice (arg_cmd_flags request) [] in
     let target := GetString (arg_target request) "" in
     arg_path request = Some pkgPath →
     (workingDir = "" ∨ os_Stat env workingDir = Some true) →
     forallb flagAllowed cmdFlags = true →
     validatePath env pkgPath workingDir = (Ok resolved, None) →
     projectDir env tr workingDir resolved = (Ok dir, tr1, deferred) →
     runGoDoc env gs tr1 dir (goDocArgs cmdFlags resolved target)
       = (Ok doc, gs', tr2) →
     handleGetDoc env gs tr request =
     (match paginate doc (GetInt (arg_page request) 1)
                         (GetInt (arg_page_size request) 1000) with
      | Ok result => Ok (ToolResultText result)
      | Error err => Ok (ToolResultError err)
      | Panic msg => Panic msg
      end, gs', tr2 ++ deferred)) ∧
  GetInt None 1000 = 1000 ∧
  (∀ n, GetInt (Some n) 1000 = n).
Proof.
  split; [|split; [|split; [|split; [|split]]]].
  - intros content page pageSize Hps Hlen. split.
    + rewrite (totalPages_eq content pageSize Hps Hlen). by eexists.
    + destruct (Z.le_gt_cases (clampPage page)
                  ((Z.of_nat (length (SplitByte content nl)) + pageSize - 1)
                   / pageSize)) as [Hin|Hout].
      * by rewrite (paginate_in_range content pageSize Hps Hlen page Hin).
      * by rewrite (paginate_beyond content pageSize Hps Hlen page Hout).
  - done.
  - intros content page pageSize Hps Hpage Hlen.
    by rewrite (paginate_negative_pageSize content page pageSize Hlen Hps Hpage).
  - apply handleGetDoc_paginates.
  - done.
  - done.
Qed.

Lemma paginate_total_iff_positive_pageSize_witness :
  (1 <= 2 <= GoInt.maxInt) ∧ 2 < pageSizeMin ∧
  Z.of_nat (String.length Examples.threeLines) < 2 ^ 62 ∧
  is_fault (paginate Examples.threeLines 1 2) = false ∧
  (GoInt.minInt <= -1 < 0) ∧
  is_fault (paginate Examples.threeLines 1 (-1)) = true ∧
  (handleGetDoc Examples.env newGodocServer [] (Examples.request (Some 2))).1.1
  = Ok (ToolResultText
          ("Page 1 of 3 (showing lines 1-2 of 5)" +:+ NL +:+ NL +:+
           "a" +:+ NL +:+ "b")).
Proof.
  assert (1 <= 2 <= GoInt.maxInt) as Hps by (unfold GoInt.maxInt; lia).
  assert (Z.of_nat (String.length Examples.threeLines) < 2 ^ 62) as Hlen
    by (vm_compute; reflexivity).
  assert (GoInt.minInt <= -1 < 0) as Hneg by (unfold GoInt.minInt; lia).
  destruct paginate_total_iff_positive_pageSize
    as (Hpos & _ & Hnegative & Hhandler & _ & _).
  split; [exact Hps|]. split; [reflexivity|]. split; [exact Hlen|].
  split; [exact (proj2 (Hpos Examples.threeLines 1 2 Hps Hlen))|].
  split; [exact Hneg|].
  split; [exact (Hnegative Examples.threeLines 1 (-1) Hneg ltac:(lia) Hlen)|].
  set (run := runGoDoc Examples.env newGodocServer [] "/w"
                (goDocArgs ["-all"] "example.com/app/sub/pkg" "")).
  rewrite (Hhandler Examples.env newGodocServer [] (Examples.request (Some 2))
             "./sub/pkg" "example.com/app/sub/pkg" "/w" [] []
             (Examples.threeLines +:+ NL +:+ "d" +:+ NL +:+ "e")
             run.1.2 run.2);
    try (vm_compute; reflexivity).
  right. vm_compute. reflexivity.
Defined.

(** ** The cache *)

Section CacheFacts.

Implicit Types (c : gmap string cachedDoc) (env : Env).

(** [time.Since] saturates, which is invisible to the comparison with the
    TTL. *)
Lemma Since_lt_TTL now t : Time.Since now t < cacheTTL ↔ now - t < cacheTTL.
Proof.
  unfold Time.Since, Time.Sub, Time.minDuration, Time.maxDuration, cacheTTL,
    Time.Minute, Time.Second, Time.Nanosecond. lia.
Qed.

Lemma lookupDoc_hit env c key doc :
  c !! key = Some doc →
  Time.Since (clockAtLookup env) (timestamp doc) < cacheTTL →
  lookupDoc env c key = (Some (content doc), c).
Proof.
  intros Hdoc Hlive. unfold lookupDoc. rewrite Hdoc.
  by destruct (Z.ltb_spec (Time.Since (clockAtLookup env) (timestamp doc))
                 cacheTTL); [|lia].
Qed.

Lemma lookupDoc_hit_inv env c key out c' :
  lookupDoc env c key = (Some out, c') →
  c' = c ∧ ∃ doc, c !! key = Some doc ∧ content doc = out ∧
    Time.Since (clockAtLookup env) (timestamp doc) < cacheTTL.
Proof.
  unfold lookupDoc. destruct (c !! key) as [doc|]; [|done].
  destruct (Z.ltb_spec (Time.Since (clockAtLookup env) (timestamp doc))
              cacheTTL); [|done].
  intros [= <- <-]. eauto.
Qed.

(** After a miss the key is not in the cache, and nothing was added. *)
Lemma lookupDoc_miss_inv env c key c' :
  lookupDoc env c key = (None, c') →
  c' = delete key c ∧ c' !! key = None ∧ c' ⊆ c ∧
  (∀ doc, c !! key = Some doc →
     cacheTTL <= Time.Since (clockAtLookup env) (timestamp doc)).
Proof.
  unfold lookupDoc. destruct (c !! key) as [doc|] eqn:Hdoc.
  - destruct (Z.ltb_spec (Time.Since (clockAtLookup env) (timestamp doc))
                cacheTTL); [done|].
    intros [= <-]. split; [done|]. split; [apply lookup_delete_eq|].
    split; [apply delete_subseteq|]. by intros ? [= <-].
  - intros [= <-]. rewrite delete_id by done. by repeat split.
Qed.

Lemma lookupDoc_size env c key :
  (size (lookupDoc env c key).2 <= size c)%nat.
Proof.
  unfold lookupDoc. destruct (c !! key) as [doc|] eqn:Hdoc; [|done].
  destruct (_ <? _); [done|]. simpl.
  rewrite map_size_delete, Hdoc. lia.
Qed.

(** The scan ends on a key it has visited. *)
Lemma scanOldest_snoc order kv :
  scanOldest (order ++ [kv]) = scanStep (scanOldest order) kv.
Proof. unfold scanOldest. by rewrite foldl_app. Qed.

Lemma scanOldest_visited order :
  order ≠ [] → (scanOldest order).1 ∈ order.*1.
Proof.
  induction order as [|kv order IH] using rev_ind; [done|]. intros _.
  rewrite scanOldest_snoc, fmap_app, elem_of_app. unfold scanStep.
  destruct (scanOldest order) as [oldestKey oldestTime] eqn:Hscan.
  destruct (String.eqb_spec oldestKey "") as [->|Hne]; simpl.
  - right. set_solver.
  - destruct (Time.Before _ _); simpl; [right; set_solver|left].
    apply IH. intros ->. apply Hne. by inversion Hscan.
Qed.

(** When no key is the empty string, the sentinel test [oldestKey == ""]
    holds on the first entry only, and the scan ends on an entry whose
    timestamp no other entry precedes. *)
Lemma scanOldest_minimal order :
  order ≠ [] → "" ∉ order.*1 →
  ∃ doc, scanOldest order = ((scanOldest order).1, timestamp doc) ∧
    ((scanOldest order).1, doc) ∈ order ∧
    ∀ k' doc', (k', doc') ∈ order → timestamp doc <= timestamp doc'.
Proof.
  induction order as [|[k d] order IH] using rev_ind; [done|].
  intros _ Hkeys. rewrite fmap_app, not_elem_of_app in Hkeys.
  destruct Hkeys as [Hkeys Hk].
  rewrite scanOldest_snoc. unfold scanStep.
  destruct (decide (order = [])) as [->|Hnonempty].
  { simpl. exists d. split; [done|]. split; [set_solver|].
    intros k' doc' Hin. apply list_elem_of_singleton in Hin as [= -> ->]. lia. }
  destruct (IH Hnonempty Hkeys) as (doc & Hscan & Hin & Hmin).
  rewrite Hscan. unfold Time.Before. simpl.
  assert ((scanOldest order).1 ≠ "") as Hne.
  { intros Heq. apply Hkeys. rewrite <- Heq.
    apply list_elem_of_fmap. by exists ((scanOldest order).1, doc). }
  destruct (String.eqb_spec (scanOldest order).1 "") as [|_]; [done|]. simpl.
  destruct (Z.ltb_spec (timestamp d) (timestamp doc)); simpl.
  - exists d. split; [done|].
    split; [apply elem_of_app; right; apply list_elem_of_singleton; done|].
    intros k' doc' Hin'. apply elem_of_app in Hin' as [Hin'|Hin'].
    + apply Hmin in Hin'. lia.
    + apply list_elem_of_singleton in Hin' as [= -> ->]. lia.
  - exists doc. split; [done|]. split; [apply elem_of_app; by left|].
    intros k' doc' Hin'. apply elem_of_app in Hin' as [Hin'|Hin'].
    + by apply (Hmin k').
    + apply list_elem_of_singleton in Hin' as [= -> ->]. lia.
Qed.

End CacheFacts.

Section EvictionFacts.

Implicit Types (c : gmap string cachedDoc) (env : Env).

Lemma oldestKey_in_cache env c :
  range_ok env → c ≠ ∅ → is_Some (c !! oldestKeyOf env c).
Proof.
  intros Hrange Hne. unfold oldestKeyOf.
  assert (mapRange env c ≠ []) as Hvisited.
  { intros Hnil. apply Hne, map_to_list_empty_iff.
    apply Permutation_nil_r. by rewrite <- (Hrange c), Hnil. }
  apply scanOldest_visited, list_elem_of_fmap in Hvisited as ([k d] & Hk & Hin).
  simpl in Hk. rewrite Hk. rewrite (Hrange c) in Hin.
  apply elem_of_map_to_list in Hin. by exists d.
Qed.

Lemma oldestKey_minimal env c :
  range_ok env → c ≠ ∅ → c !! "" = None →
  ∃ doc, c !! oldestKeyOf env c = Some doc ∧
    ∀ k' doc', c !! k' = Some doc' → timestamp doc <= timestamp doc'.
Proof.
  intros Hrange Hne Hkeys. unfold oldestKeyOf.
  assert (mapRange env c ≠ []) as Hvisited.
  { intros Hnil. apply Hne, map_to_list_empty_iff.
    apply Permutation_nil_r. by rewrite <- (Hrange c), Hnil. }
  destruct (scanOldest_minimal (mapRange env c) Hvisited)
    as (doc & _ & Hin & Hmin).
  { intros Hin. apply list_elem_of_fmap in Hin as ([k d] & Hk & Hin).
    simpl in Hk. subst k. rewrite (Hrange c) in Hin.
    apply elem_of_map_to_list in Hin. congruence. }
  exists doc. split.
  - apply elem_of_map_to_list. by rewrite <- (Hrange c).
  - intros k' doc' Hk'. apply (Hmin k').
    rewrite (Hrange c). by apply elem_of_map_to_list.
Qed.

Lemma size_pos_nonempty c : (0 < size c)%nat → c ≠ ∅.
Proof. intros Hsize ->. rewrite map_size_empty in Hsize. lia. Qed.

(** After the eviction step there is room for one more entry. *)
Lemma evictIfFull_room env c :
  range_ok env → Z.of_nat (size c) <= maxCacheSize →
  Z.of_nat (size (evictIfFull env c)) < maxCacheSize.
Proof.
  intros Hrange Hsize. unfold evictIfFull, maxCacheSize in *.
  destruct (Z.leb_spec 500 (Z.of_nat (size c))); [|lia].
  rewrite map_size_delete_Some; [lia|].
  apply oldestKey_in_cache; [done|]. apply size_pos_nonempty. lia.
Qed.

Lemma storeDoc_size env c key out :
  range_ok env → Z.of_nat (size c) <= maxCacheSize →
  Z.of_nat (size (storeDoc env c key out)) <= maxCacheSize.
Proof.
  intros Hrange Hsize. pose proof (evictIfFull_room env c Hrange Hsize).
  unfold storeDoc. rewrite map_size_insert.
  destruct (evictIfFull env c !! key); simpl; lia.
Qed.

Lemma applyOp_size c op :
  range_ok (opEnv op) → Z.of_nat (size c) <= maxCacheSize →
  Z.of_nat (size (applyOp c op)) <= maxCacheSize.
Proof.
  intros Hrange Hsize. destruct op as [env key|env key out]; simpl in *.
  - pose proof (lookupDoc_size env c key). lia.
  - by apply storeDoc_size.
Qed.

(** What a call of [runGoDoc] does to the cache is one lookup, followed by
    one store when the extractor ran and succeeded. *)
Lemma runGoDoc_cache_ops env gs tr dir args :
  let key := cacheKeyOf dir args in
  let res := CombinedOutput env (goDocCmd dir args) in
  cache (runGoDoc env gs tr dir args).1.2 =
  match (lookupDoc env (cache gs) key).1, exec_err res with
  | None, None => runOps (cache gs) [OpLookup env key; OpStore env key (exec_out res)]
  | _, _ => runOps (cache gs) [OpLookup env key]
  end.
Proof.
  intros key res. unfold runGoDoc. fold key res.
  destruct (lookupDoc env (cache gs) key) as [[out|] c] eqn:Hlookup; simpl.
  - rewrite Hlookup. simpl. by apply lookupDoc_hit_inv in Hlookup as [-> _].
  - rewrite Hlookup. by destruct (exec_err res).
Qed.

End EvictionFacts.

(** C3. Starting from a cache of at most [maxCacheSize] (500) entries, the
    cache holds at most [maxCacheSize] entries after every operation of
    every sequence of lookups (hits, and misses that remove an expired
    entry) and stores (eviction followed by insertion), in whatever order
    concurrent calls interleave them; in particular after every call of
    [runGoDoc]. *)
Theorem cache_size_bounded :
  (∀ c ops,
     Forall (λ op, range_ok (opEnv op)) ops →
     Z.of_nat (size c) <= maxCacheSize →
     Forall (λ c', Z.of_nat (size c') <= maxCacheSize) (cacheStates c ops)) ∧
  (∀ env gs tr dir args,
     range_ok env →
     Z.of_nat (size (cache gs)) <= maxCacheSize →
     Z.of_nat (size (cache (runGoDoc env gs tr dir args).1.2)) <= maxCacheSize).
Proof.
  assert (∀ c ops,
     Forall (λ op, range_ok (opEnv op)) ops →
     Z.of_nat (size c) <= maxCacheSize →
     Forall (λ c', Z.of_nat (size c') <= maxCacheSize) (cacheStates c ops)
     ∧ Z.of_nat (size (runOps c ops)) <= maxCacheSize) as Hops.
  { intros c ops Hrange. revert c.
    induction Hrange as [|op ops Hop _ IH]; intros c Hsize; [by split|].
    pose proof (applyOp_size c op Hop Hsize) as Hstep.
    destruct (IH _ Hstep) as [Hstates Hlast].
    split; [by constructor|done]. }
  split.
  - intros c ops Hrange Hsize. by apply Hops.
  - intros env gs tr dir args Hrange Hsize.
    rewrite runGoDoc_cache_ops.
    destruct (lookupDoc env (cache gs) (cacheKeyOf dir args)).1,
             (exec_err (CombinedOutput env (goDocCmd dir args)));
      apply Hops; repeat constructor; done.
Qed.

Lemma cache_size_bounded_witness :
  Forall (λ op, range_ok (opEnv op)) (Examples.racingCalls ++ [Examples.lateStore]) ∧
  Z.of_nat (size Examples.warmCache) <= maxCacheSize ∧
  Forall (λ c', Z.of_nat (size c') <= maxCacheSize)
    (cacheStates Examples.warmCache (Examples.racingCalls ++ [Examples.lateStore])).
Proof.
  assert (Forall (λ op, range_ok (opEnv op))
            (Examples.racingCalls ++ [Examples.lateStore])) as Hrange
    by (repeat constructor; intros c; reflexivity).
  assert (Z.of_nat (size Examples.warmCache) <= maxCacheSize) as Hsize
    by (vm_compute; discriminate).
  split; [exact Hrange|]. split; [exact Hsize|].
  exact (proj1 cache_size_bounded Examples.warmCache _ Hrange Hsize).
Defined.

(** Every key [runGoDoc] uses contains the separator, so the empty string,
    which the eviction scan uses for "no entry seen yet", is never a key of
    the cache. *)
Lemma cacheKeyOf_nonempty dir args : cacheKeyOf dir args ≠ "".
Proof. unfold cacheKeyOf. by destruct dir. Qed.

Lemma applyOp_no_empty_key (c : gmap string cachedDoc) op :
  (match op with OpLookup _ k | OpStore _ k _ => k ≠ "" end) →
  c !! "" = None → applyOp c op !! "" = None.
Proof.
  intros Hkey Hc. destruct op as [env key|env key out]; simpl.
  - unfold lookupDoc. destruct (c !! key); [|done].
    destruct (_ <? _); [done|]. simpl. by rewrite lookup_delete_ne.
  - unfold storeDoc, evictIfFull. rewrite lookup_insert_ne by done.
    destruct (_ <=? _); [|done].
    destruct (decide (oldestKeyOf env c = "")) as [->|];
      [apply lookup_delete_eq|by rewrite lookup_delete_ne].
Qed.

Lemma runGoDoc_no_empty_key env gs tr dir args :
  cache gs !! "" = None → cache (runGoDoc env gs tr dir args).1.2 !! "" = None.
Proof.
  intros Hc. rewrite runGoDoc_cache_ops.
  pose proof (cacheKeyOf_nonempty dir args).
  destruct (lookupDoc env (cache gs) (cacheKeyOf dir args)).1,
           (exec_err (CombinedOutput env (goDocCmd dir args)));
    unfold runOps; cbn [foldl];
    repeat (apply applyOp_no_empty_key; [done|]); done.
Qed.

(** C4 (amended). When a document is stored in a cache that holds
    [maxCacheSize] entries, all under keys [runGoDoc] made, the eviction
    scan removes an entry whose timestamp is less than or equal to that of
    every entry of the cache, whatever the order of the scan. The new
    document then goes in: the cache ends with [maxCacheSize] entries when
    the key was not in the cache, or was the one evicted, and with
    [maxCacheSize - 1] when the key was in the cache under another entry,
    which the insertion replaces. *)
Theorem store_at_capacity (env : Env) (c : gmap string cachedDoc)
    (key out : string) :
  range_ok env →
  Z.of_nat (size c) = maxCacheSize →
  c !! "" = None →
  (∃ doc, c !! oldestKeyOf env c = Some doc ∧
     ∀ k' doc', c !! k' = Some doc' → timestamp doc <= timestamp doc') ∧
  storeDoc env c key out =
    <[key := {| content := out; timestamp := clockAtStore env |}]>
      (delete (oldestKeyOf env c) c) ∧
  (c !! key = None ∨ key = oldestKeyOf env c →
     Z.of_nat (size (storeDoc env c key out)) = maxCacheSize) ∧
  (is_Some (c !! key) → key ≠ oldestKeyOf env c →
     Z.of_nat (size (storeDoc env c key out)) = maxCacheSize - 1).
Proof.
  intros Hrange Hsize Hkeys.
  assert (c ≠ ∅) as Hne
    by (apply size_pos_nonempty; unfold maxCacheSize in Hsize; lia).
  destruct (oldestKey_minimal env c Hrange Hne Hkeys) as (doc & Hdoc & Hmin).
  assert (storeDoc env c key out =
          <[key := {| content := out; timestamp := clockAtStore env |}]>
            (delete (oldestKeyOf env c) c)) as Hstore.
  { unfold storeDoc, evictIfFull.
    by destruct (Z.leb_spec maxCacheSize (Z.of_nat (size c))); [|lia]. }
  assert (Z.of_nat (size (delete (oldestKeyOf env c) c)) = maxCacheSize - 1)
    as Hevicted.
  { rewrite map_size_delete_Some by eauto. unfold maxCacheSize in *. lia. }
  split; [eauto|]. split; [done|]. rewrite Hstore. split.
  - intros Hfresh. rewrite map_size_insert_None; [lia|].
    destruct Hfresh as [Hnone| ->]; [|apply lookup_delete_eq].
    destruct (decide (oldestKeyOf env c = key)) as [->|];
      [apply lookup_delete_eq|by rewrite lookup_delete_ne].
  - intros Hpresent Hother. rewrite map_size_insert_Some; [done|].
    by rewrite lookup_delete_ne.
Qed.

Lemma store_at_capacity_witness :
  range_ok (Examples.envAt 501) ∧
  Z.of_nat (size Examples.fullCache) = maxCacheSize ∧
  Examples.fullCache !! "" = None ∧
  Examples.fullCache !! Examples.nthKey 501 = None ∧
  Z.of_nat (size (storeDoc (Examples.envAt 501) Examples.fullCache
                    (Examples.nthKey 501) "doc")) = maxCacheSize.
Proof.
  assert (range_ok (Examples.envAt 501)) as Hrange by (intros c; reflexivity).
  assert (Z.of_nat (size Examples.fullCache) = maxCacheSize) as Hsize
    by (vm_compute; reflexivity).
  assert (Examples.fullCache !! "" = None) as Hkeys by (vm_compute; reflexivity).
  assert (Examples.fullCache !! Examples.nthKey 501 = None) as Hfresh
    by (vm_compute; reflexivity).
  split; [exact Hrange|]. split; [exact Hsize|]. split; [exact Hkeys|].
  split; [exact Hfresh|].
  exact (proj1 (proj2 (proj2 (store_at_capacity (Examples.envAt 501)
           Examples.fullCache (Examples.nthKey 501) "doc" Hrange Hsize Hkeys)))
           (or_introl Hfresh)).
Defined.

(** A call of [runGoDoc] finds its key absent when it stores, unless another
    call stored it in between: when the cache is full after the lookup of a
    call that then runs the extractor with success, it is full after the
    call. *)
Lemma runGoDoc_at_capacity env gs tr dir args c :
  range_ok env →
  lookupDoc env (cache gs) (cacheKeyOf dir args) = (None, c) →
  exec_err (CombinedOutput env (goDocCmd dir args)) = None →
  Z.of_nat (size c) = maxCacheSize →
  Z.of_nat (size (cache (runGoDoc env gs tr dir args).1.2)) = maxCacheSize.
Proof.
  intros Hrange Hmiss Hrun Hsize. unfold runGoDoc. rewrite Hmiss, Hrun. simpl.
  apply lookupDoc_miss_inv in Hmiss as (_ & Habsent & _).
  assert (is_Some (c !! oldestKeyOf env c)) as Hvictim.
  { apply oldestKey_in_cache; [done|]. apply size_pos_nonempty.
    unfold maxCacheSize in Hsize. lia. }
  unfold storeDoc, evictIfFull.
  destruct (Z.leb_spec maxCacheSize (Z.of_nat (size c))); [|lia].
  rewrite map_size_insert_None.
  - rewrite map_size_delete_Some by done. unfold maxCacheSize in *. lia.
  - destruct (decide (oldestKeyOf env c = cacheKeyOf dir args)) as [->|];
      [apply lookup_delete_eq|by rewrite lookup_delete_ne].
Qed.

(** C4 as stated fails: two calls for the same key both miss, the first
    stores its document and fills the cache, and the second one's store
    finds [maxCacheSize] entries, evicts the oldest and overwrites the entry
    of its key, leaving [maxCacheSize - 1]. *)
Lemma store_at_capacity_counterexample :
  Z.of_nat (size (runOps Examples.warmCache Examples.racingCalls)) = maxCacheSize ∧
  Z.of_nat (size (applyOp (runOps Examples.warmCache Examples.racingCalls)
                    Examples.lateStore)) = maxCacheSize - 1.
Proof. split; vm_compute; reflexivity. Qed.

(** ** Hits and failures *)

(** C1. When a call of [runGoDoc] has returned a document, the cache holds
    it under the key of the call; as long as that entry is in the cache and
    younger than the TTL, every later call with the same directory and the
    same arguments returns the same bytes, and neither runs the extractor
    nor changes the cache. *)
Theorem runGoDoc_second_call_hits (env1 : Env) (gs : godocServer)
    (tr : list Event) (dir : string) (args : list string)
    (out : string) (gs1 : godocServer) (tr1 : list Event) :
  runGoDoc env1 gs tr dir args = (Ok out, gs1, tr1) →
  ∃ doc,
    cache gs1 !! cacheKeyOf dir args = Some doc ∧ content doc = out ∧
    ∀ env2 gs2 tr2,
      cache gs2 !! cacheKeyOf dir args = Some doc →
      Time.Since (clockAtLookup env2) (timestamp doc) < cacheTTL →
      runGoDoc env2 gs2 tr2 dir args = (Ok out, gs2, tr2).
Proof.
  intros Hrun.
  assert (∃ doc, cache gs1 !! cacheKeyOf dir args = Some doc ∧ content doc = out)
    as (doc & Hdoc & Hout).
  { unfold runGoDoc in Hrun.
    destruct (lookupDoc env1 (cache gs) (cacheKeyOf dir args))
      as [[hit|] c] eqn:Hlookup.
    - injection Hrun as <- <- <-.
      apply lookupDoc_hit_inv in Hlookup as (_ & doc & ? & ? & _). eauto.
    - destruct (exec_err (CombinedOutput env1 (goDocCmd dir args)));
        [done|]. injection Hrun as <- <- <-. simpl.
      eexists. split; [apply lookup_insert_eq|done]. }
  exists doc. split; [done|]. split; [done|].
  intros env2 gs2 tr2 Hstill Hlive. unfold runGoDoc.
  rewrite (lookupDoc_hit env2 (cache gs2) _ doc Hstill Hlive). by rewrite Hout.
Qed.

Lemma runGoDoc_second_call_hits_witness :
  (runGoDoc Examples.env newGodocServer [] "/w" ["io"]).1.1
    = Ok (Examples.threeLines +:+ NL +:+ "d" +:+ NL +:+ "e") ∧
  runGoDoc (Examples.envAt (11 + cacheTTL - 1))
    (runGoDoc Examples.env newGodocServer [] "/w" ["io"]).1.2
    (runGoDoc Examples.env newGodocServer [] "/w" ["io"]).2 "/w" ["io"]
  = (Ok (Examples.threeLines +:+ NL +:+ "d" +:+ NL +:+ "e"),
     (runGoDoc Examples.env newGodocServer [] "/w" ["io"]).1.2,
     [EvExec (goDocCmd "/w" ["io"])]).
Proof.
  set (first := runGoDoc Examples.env newGodocServer [] "/w" ["io"]).
  set (out := Examples.threeLines +:+ NL +:+ "d" +:+ NL +:+ "e").
  assert (first = (Ok out, first.1.2, first.2)) as Hfirst
    by (vm_compute; reflexivity).
  destruct (runGoDoc_second_call_hits Examples.env newGodocServer [] "/w"
              ["io"] out first.1.2 first.2 Hfirst) as (doc & Hdoc & _ & Hhit).
  split; [by rewrite Hfirst|].
  assert (doc = {| content := out; timestamp := 11 |}) as ->.
  { assert (cache first.1.2 !! cacheKeyOf "/w" ["io"]
            = Some {| content := out; timestamp := 11 |}) as Hstored
      by (vm_compute; reflexivity).
    congruence. }
  rewrite (Hhit (Examples.envAt (11 + cacheTTL - 1)) first.1.2 first.2 Hdoc);
    [reflexivity|vm_compute; reflexivity].
Defined.




(** ** Cache keys *)

Section KeyFacts.

Variable sep : ascii.
Let free (s : string) : Prop := Contains s (String sep "") = false.

Lemma Contains_byte_cons x s :
  Contains (String x s) (String sep "")
  = Ascii.eqb x sep || Contains s (String sep "").
Proof. simpl. by destruct (Ascii.eqb x sep). Qed.

Lemma free_cons x s : free (String x s) → x ≠ sep ∧ free s.
Proof.
  unfold free. rewrite Contains_byte_cons. intros H.
  apply orb_false_iff in H as [Hx Hs]. split; [|done].
  intros ->. by rewrite Ascii.eqb_refl in Hx.
Qed.

Lemma SplitByte_app_sep s t :
  free s → SplitByte (s +:+ String sep t) sep = s :: SplitByte t sep.
Proof.
  induction s as [|x s IH]; intros Hfree.
  - simpl. by rewrite Ascii.eqb_refl.
  - apply free_cons in Hfree as [Hx Hs].
    change (String x s +:+ String sep t) with (String x (s +:+ String sep t)).
    simpl. destruct (Ascii.eqb_spec x sep); [done|]. by rewrite IH.
Qed.

Lemma SplitByte_free s : free s → SplitByte s sep = [s].
Proof.
  induction s as [|x s IH]; intros Hfree; [done|].
  apply free_cons in Hfree as [Hx Hs]. simpl.
  destruct (Ascii.eqb_spec x sep); [done|]. by rewrite IH.
Qed.

(** Splitting undoes joining when no element contains the separator. *)
Lemma SplitByte_Join l :
  l ≠ [] → Forall free l → SplitByte (Join l (String sep "")) sep = l.
Proof.
  intros Hne Hfree. induction Hfree as [|s l Hs Hl IH]; [done|].
  destruct l as [|s' l].
  - simpl. by apply SplitByte_free.
  - rewrite Join_cons by done.
    change (String sep "" +:+ Join (s' :: l) (String sep ""))
      with (String sep (Join (s' :: l) (String sep ""))).
    rewrite SplitByte_app_sep by done. by rewrite IH.
Qed.

End KeyFacts.

Lemma cacheKeyOf_split dir args :
  hasBar dir = false → args ≠ [] → Forall (λ a, hasBar a = false) args →
  SplitByte (cacheKeyOf dir args) bar = dir :: args.
Proof.
  intros Hdir Hne Hargs. unfold cacheKeyOf.
  change ("|" +:+ Join args "|") with (String bar (Join args (String bar ""))).
  rewrite SplitByte_app_sep by done. by rewrite SplitByte_Join.
Qed.

(** C2 (amended). The cache key is a function of the directory and the
    argument list, so equal queries have equal keys. On queries whose
    directory and arguments do not contain the separator ['|'] and whose
    argument list is not empty, the key is injective: equal keys come from
    equal directories and equal argument lists only. *)
Theorem cacheKeyOf_injective (dir1 dir2 : string) (args1 args2 : list string) :
  hasBar dir1 = false → hasBar dir2 = false →
  Forall (λ a, hasBar a = false) args1 → Forall (λ a, hasBar a = false) args2 →
  args1 ≠ [] → args2 ≠ [] →
  (cacheKeyOf dir1 args1 = cacheKeyOf dir2 args2 ↔ dir1 = dir2 ∧ args1 = args2).
Proof.
  intros Hd1 Hd2 Ha1 Ha2 Hn1 Hn2. split; [|by intros [-> ->]].
  intros Hkey. apply (f_equal (λ k, SplitByte k bar)) in Hkey.
  rewrite !cacheKeyOf_split in Hkey by done. by injection Hkey.
Qed.

Lemma cacheKeyOf_injective_witness :
  hasBar "/w" = false ∧
  Forall (λ a, hasBar a = false) ["-all"; "io"; "Reader"] ∧
  (cacheKeyOf "/w" ["-all"; "io"; "Reader"] = cacheKeyOf "/w" ["-all"; "io"; "Reader"]
   ↔ "/w" = "/w" ∧ ["-all"; "io"; "Reader"] = ["-all"; "io"; "Reader"]).
Proof.
  assert (hasBar "/w" = false) as Hdir by reflexivity.
  assert (Forall (λ a, hasBar a = false) ["-all"; "io"; "Reader"]) as Hargs
    by (repeat constructor).
  split; [exact Hdir|]. split; [exact Hargs|].
  exact (cacheKeyOf_injective "/w" "/w" ["-all"; "io"; "Reader"]
           ["-all"; "io"; "Reader"] Hdir Hdir Hargs Hargs
           ltac:(discriminate) ltac:(discriminate)).
Defined.

(** C2 as stated fails: the package path [io|Reader] and the package [io]
    with the symbol [Reader] are different queries with the same key; so
    are the directories [/w] and [/w|io] with suitable arguments, and no
    argument and one empty argument. *)
Lemma cacheKeyOf_collision :
  cacheKeyOf "/w" ["io|Reader"] = cacheKeyOf "/w" ["io"; "Reader"] ∧
  ["io|Reader"] ≠ ["io"; "Reader"] ∧
  cacheKeyOf "/w" ["io"; "Reader"] = cacheKeyOf "/w|io" ["Reader"] ∧
  "/w" ≠ "/w|io" ∧
  cacheKeyOf "/w" [] = cacheKeyOf "/w" [""] ∧
  @nil string ≠ [""].
Proof.
  split; [reflexivity|]. split; [discriminate|].
  split; [reflexivity|]. split; [discriminate|].
  split; [reflexivity|discriminate].
Qed.

(** ** The location resolver *)

(** *** Strings as bytes *)

Section ByteFacts.

Lemma byte_range c : 0 <= byte c < 256.
Proof.
  unfold byte. pose proof (N_ascii_bounded c). lia.
Qed.

Lemma string_app_cons x (a b : string) : String x a +:+ b = String x (a +:+ b).
Proof. done. Qed.

Lemma string_app_nil_l (b : string) : "" +:+ b = b.
Proof. done. Qed.

Lemma take_drop_bytes n s : take_bytes n s +:+ drop_bytes n s = s.
Proof.
  revert s. induction n as [|n IH]; intros [|c s]; simpl; try done.
  by rewrite string_app_cons, IH.
Qed.

Lemma length_app_string (a b : string) :
  String.length (a +:+ b) = (String.length a + String.length b)%nat.
Proof. induction a as [|x a IH]; [done|]. rewrite string_app_cons. simpl. by rewrite IH. Qed.

Lemma length_drop_bytes n s :
  String.length (drop_bytes n s) = (String.length s - n)%nat.
Proof. revert s. induction n as [|n IH]; intros [|c s]; simpl; auto with lia. Qed.

Lemma length_take_bytes n s :
  String.length (take_bytes n s) = (n `min` String.length s)%nat.
Proof. revert s. induction n as [|n IH]; intros [|c s]; simpl; auto with lia. Qed.

Lemma take_bytes_app n (a b : string) :
  (n <= String.length a)%nat → take_bytes n (a +:+ b) = take_bytes n a.
Proof.
  revert a. induction n as [|n IH]; intros [|c a] Hn; simpl in *; try done; try lia.
  rewrite ?string_app_cons; simpl; rewrite IH; [done|lia].
Qed.

Lemma drop_bytes_app n (a b : string) :
  (n <= String.length a)%nat → drop_bytes n (a +:+ b) = drop_bytes n a +:+ b.
Proof.
  revert a. induction n as [|n IH]; intros [|c a] Hn; simpl in *; try done; try lia.
  rewrite ?string_app_cons; simpl; rewrite IH; [done|lia].
Qed.

Lemma string_app_inv_head (w a b : string) : w +:+ a = w +:+ b → a = b.
Proof.
  induction w as [|x w IH]; [done|]. rewrite !string_app_cons. intros [= H]. by apply IH.
Qed.

Lemma length_zero_string (s : string) : String.length s = 0%nat → s = "".
Proof. by destruct s. Qed.

Lemma take_bytes_all n s : (String.length s <= n)%nat → take_bytes n s = s.
Proof.
  revert s. induction n as [|n IH]; intros [|c s] Hn; simpl in *; try done; try lia.
  rewrite IH; [done|lia].
Qed.

Lemma drop_bytes_all n s : (String.length s <= n)%nat → drop_bytes n s = "".
Proof.
  intros Hn. apply length_zero_string. rewrite length_drop_bytes. lia.
Qed.

End ByteFacts.

(** *** Runes *)

Section Utf8Facts.
Import Utf8 Unicode.

(** A byte below [0x80] is a rune of its own. *)
Lemma decode_ascii c t :
  byte c < 128 → DecodeRuneInString (String c t) = (byte c, 1%nat).
Proof.
  intros Hc. unfold DecodeRuneInString, byteAt. simpl.
  unfold first. destruct (Z.ltb_spec (byte c) 128); [done|lia].
Qed.

(** Turns the comparisons of lengths in the context into propositions. *)
Ltac bool_to_prop :=
  repeat match goal with
  | H : (_ <? _)%nat = true |- _ => apply Nat.ltb_lt in H
  | H : (_ <? _)%nat = false |- _ => apply Nat.ltb_ge in H
  | H : (_ <=? _)%nat = true |- _ => apply Nat.leb_le in H
  | H : (_ <=? _)%nat = false |- _ => apply Nat.leb_gt in H
  end.

(** An encoding of several bytes has two to four, and its second byte
    is a continuation byte. *)
Lemma first_size b :
  (as_ <=? first b) = false → (2 <= Z.to_nat (Z.land (first b) 7) <= 4)%nat.
Proof. unfold first. repeat case_match; vm_compute; try done; lia. Qed.

(** Abstracts the table entry of the first byte in a goal about
    [DecodeRuneInString]. *)
Ltac abstract_first c0 :=
  let x := fresh "x" in
  let Hx := fresh "Hx" in
  let sz := fresh "sz" in
  let accept := fresh "accept" in
  pose proof (first_size (byte c0)) as Hx;
  generalize dependent (first (byte c0)); intros x Hx;
  destruct (as_ <=? x); [|specialize (Hx eq_refl);
    generalize dependent (Z.to_nat (Z.land x 7)); intros sz Hx;
    generalize (acceptRanges (Z.shiftr x 4)); intros accept].

(** A rune of a string that is not empty has at least one byte and no
    more than the string. *)
Lemma decode_size s r size :
  s ≠ "" → DecodeRuneInString s = (r, size) →
  (1 <= size <= String.length s)%nat.
Proof.
  intros Hs. destruct s as [|c0 t]; [done|].
  unfold DecodeRuneInString, byteAt. cbn [String.length Nat.ltb Nat.leb String.get].
  abstract_first c0.
  - intros [= <- <-]. lia.
  - repeat case_match; intros [= <- <-]; bool_to_prop; try lia.
Qed.

(** The first rune of a string is read from the bytes of that rune alone:
    a prefix that holds them all begins with the same rune. *)
Lemma decode_prefix a b r size :
  DecodeRuneInString (a +:+ b) = (r, size) → (size <= String.length a)%nat →
  a ≠ "" →
  DecodeRuneInString a = (r, size).
Proof.
  intros Hdec Hsize Ha. destruct a as [|c0 a]; [done|]. clear Ha.
  rewrite string_app_cons in Hdec. revert Hdec.
  unfold DecodeRuneInString, byteAt.
  cbn [String.length Nat.ltb Nat.leb String.get].
  abstract_first c0; [done|].
  destruct a as [|c1 a].
  { repeat case_match; try done; intros [= <- <-]; bool_to_prop; simpl in *; lia. }
  rewrite string_app_cons. cbn [String.length String.get].
  destruct a as [|c2 a].
  { repeat case_match; try done; intros [= <- <-]; bool_to_prop; simpl in *; lia. }
  rewrite string_app_cons. cbn [String.length String.get].
  destruct a as [|c3 a].
  { repeat case_match; try done; intros [= <- <-]; bool_to_prop; simpl in *; lia. }
  rewrite string_app_cons. cbn [String.length String.get].
  repeat case_match; try done; intros [= <- <-]; bool_to_prop; simpl in *; lia.
Qed.

Lemma first_accept b :
  (as_ <=? first b) = false →
  128 <= (acceptRanges (Z.shiftr (first b) 4)).1 ∧
  (acceptRanges (Z.shiftr (first b) 4)).2 <= 191.
Proof. unfold first. repeat case_match; vm_compute; try done; split; discriminate. Qed.

(** Bytes that cannot continue an encoding, put behind a string, do not
    change its first rune. *)
Lemma decode_extend a c b :
  a ≠ "" → byte c < 128 ∨ 192 <= byte c →
  DecodeRuneInString (a +:+ String c b) = DecodeRuneInString a.
Proof.
  intros Ha Hc. destruct a as [|c0 a]; [done|]. clear Ha.
  rewrite string_app_cons.
  unfold DecodeRuneInString, byteAt.
  cbn [String.length Nat.ltb Nat.leb String.get].
  pose proof (first_accept (byte c0)) as Haccept.
  pose proof (first_size (byte c0)) as Hx.
  generalize dependent (first (byte c0)). intros x Haccept Hx.
  destruct (as_ <=? x); [done|].
  specialize (Hx eq_refl). destruct (Haccept eq_refl) as [Hlo Hhi]. clear Haccept.
  generalize dependent (Z.to_nat (Z.land x 7)). intros sz Hx.
  generalize dependent (acceptRanges (Z.shiftr x 4)). intros accept Hlo Hhi.
  unfold locb, hicb.
  destruct a as [|c1 a].
  { rewrite string_app_nil_l. cbn [String.length String.get].
    repeat case_match; try done; bool_to_prop; simpl in *; lia. }
  rewrite string_app_cons. cbn [String.length String.get].
  destruct a as [|c2 a].
  { rewrite string_app_nil_l. cbn [String.length String.get].
    repeat case_match; try done; bool_to_prop; simpl in *; lia. }
  rewrite string_app_cons. cbn [String.length String.get].
  destruct a as [|c3 a].
  { rewrite string_app_nil_l. cbn [String.length String.get].
    repeat case_match; try done; bool_to_prop; simpl in *; lia. }
  rewrite string_app_cons. cbn [String.length String.get].
  repeat case_match; try done; bool_to_prop; simpl in *; lia.
Qed.

(** A rune that is white space does not begin with a continuation byte. *)
Lemma decode_space_start c b :
  IsSpace (DecodeRuneInString (String c b)).1 = true →
  byte c < 128 ∨ 192 <= byte c.
Proof.
  unfold DecodeRuneInString, byteAt.
  cbn [String.length Nat.ltb Nat.leb String.get]. unfold first.
  destruct (Z.ltb_spec (byte c) 128); [by left|].
  destruct (Z.ltb_spec (byte c) 194); [done|]. right. lia.
Qed.

End Utf8Facts.

(** *** Fields *)

Section FieldsFuncFacts.
Import Utf8.

Variable f : Z → bool.

(** The bound on the number of runes does not matter once it reaches the
    length of the string. *)
Lemma fieldsFunc_go_fuel n m s cur :
  (String.length s <= n)%nat → (String.length s <= m)%nat →
  fieldsFunc_go n s f cur = fieldsFunc_go m s f cur.
Proof.
  revert m s cur.
  induction n as [|n IH]; intros m s cur Hn Hm.
  - destruct s; [by destruct m|simpl in Hn; lia].
  - destruct s as [|c s]; [by destruct m|].
    destruct m as [|m]; [simpl in Hm; lia|].
    cbn [fieldsFunc_go].
    destruct (DecodeRuneInString (String c s)) as [r size] eqn:Hdec.
    apply decode_size in Hdec as Hsize; [|done].
    assert (String.length (drop_bytes size (String c s)) <= String.length s)%nat
      as Hdrop by (rewrite length_drop_bytes; simpl; lia).
    simpl in Hn, Hm.
    by rewrite !(IH m (drop_bytes size (String c s))) by lia.
Qed.

Lemma fieldsFrom_nil cur : fieldsFrom "" f cur = endSpan cur [].
Proof. by destruct cur. Qed.

Lemma fieldsFrom_step s cur r size :
  s ≠ "" → DecodeRuneInString s = (r, size) →
  fieldsFrom s f cur =
  if f r then endSpan cur (fieldsFrom (drop_bytes size s) f None)
  else fieldsFrom (drop_bytes size s) f
         (Some (spanText cur +:+ take_bytes size s)).
Proof.
  intros Hs Hdec. unfold fieldsFrom at 1.
  destruct s as [|c s]; [done|]. cbn [String.length fieldsFunc_go].
  rewrite Hdec. apply decode_size in Hdec as Hsize; [|done].
  assert (String.length (drop_bytes size (String c s)) <= String.length s)%nat
    as Hdrop by (rewrite length_drop_bytes; simpl; lia).
  unfold fieldsFrom.
  by rewrite !(fieldsFunc_go_fuel (String.length s)
                 (String.length (drop_bytes size (String c s)))) by lia.
Qed.

(** Induction on the length of a string. *)
Lemma string_length_ind (P : string → Prop) :
  (∀ s, (∀ t, (String.length t < String.length s)%nat → P t) → P s) →
  ∀ s, P s.
Proof.
  intros Hind s. remember (String.length s) as n eqn:Hn.
  revert s Hn. induction (lt_wf n) as [n _ IH]. intros s ->.
  apply Hind. intros t Ht. by apply (IH _ Ht).
Qed.

Lemma decode_drop_lt s r size :
  s ≠ "" → DecodeRuneInString s = (r, size) →
  (String.length (drop_bytes size s) < String.length s)%nat.
Proof.
  intros Hs Hdec. apply decode_size in Hdec; [|done].
  rewrite length_drop_bytes. lia.
Qed.

(** The span being read only grows at its end: what was read before does
    not matter to the scan. *)
Lemma fieldsFrom_open s :
  ∃ h t, ∀ w, fieldsFrom s f (Some w) = (w +:+ h) :: t.
Proof.
  induction s as [s IH] using string_length_ind.
  destruct s as [|c s].
  { exists "", []. intros w. by rewrite fieldsFrom_nil, string_app_nil_r. }
  assert (String c s ≠ "") as Hne by done.
  destruct (DecodeRuneInString (String c s)) as [r size] eqn:Hdec.
  pose proof (decode_drop_lt _ _ _ Hne Hdec) as Hlt.
  destruct (f r) eqn:Hr.
  - exists "", (fieldsFrom (drop_bytes size (String c s)) f None). intros w.
    rewrite (fieldsFrom_step _ _ r size) by done. rewrite Hr.
    by rewrite string_app_nil_r.
  - destruct (IH _ Hlt) as (h & t & Hopen).
    exists (take_bytes size (String c s) +:+ h), t. intros w.
    rewrite (fieldsFrom_step _ _ r size) by done. rewrite Hr.
    cbn [spanText]. by rewrite Hopen, string_app_assoc.
Qed.

Lemma word_nil : word f "".
Proof. intros u. by rewrite fieldsFrom_nil, string_app_nil_r. Qed.

Lemma fieldsFrom_None s r size :
  s ≠ "" → DecodeRuneInString s = (r, size) → f r = false →
  fieldsFrom s f None = fieldsFrom s f (Some "").
Proof.
  intros Hs Hdec Hr.
  rewrite (fieldsFrom_step s None r size), (fieldsFrom_step s (Some "") r size)
    by done.
  by rewrite Hr.
Qed.

(** A rune that fails [f], put before a word, makes a word. *)
Lemma word_cons s b r size h :
  s ≠ "" → DecodeRuneInString s = (r, size) → f r = false →
  drop_bytes size s = h +:+ b → word f h →
  word f (take_bytes size s +:+ h).
Proof.
  intros Hs Hdec Hr Hdrop Hh u.
  apply decode_size in Hdec as Hsize; [|done].
  assert (String.length (take_bytes size s) = size) as Hlen
    by (rewrite length_take_bytes; lia).
  assert (take_bytes size s +:+ h ≠ "") as Hne.
  { intros Hnil. apply (f_equal String.length) in Hnil.
    rewrite length_app_string in Hnil. simpl in Hnil. lia. }
  assert (DecodeRuneInString (take_bytes size s +:+ h) = (r, size)) as Hdec'.
  { apply (decode_prefix _ b); [|rewrite length_app_string; lia|done].
    by rewrite string_app_assoc, <- Hdrop, take_drop_bytes. }
  rewrite (fieldsFrom_step _ _ r size) by done.
  rewrite Hr. cbn [spanText].
  rewrite drop_bytes_app, take_bytes_app by lia.
  rewrite drop_bytes_all, take_bytes_all by lia.
  rewrite string_app_nil_l, Hh. by rewrite string_app_assoc.
Qed.

(** The fields of a string are words, none of them empty; and the span
    that is open when the scan starts is extended by a word that is a
    prefix of the string. *)
Lemma fieldsFrom_words s :
  Forall (λ w, w ≠ "" ∧ word f w) (fieldsFrom s f None) ∧
  ∃ h t b, s = h +:+ b ∧ word f h ∧
    (∀ u, fieldsFrom s f (Some u) = (u +:+ h) :: t) ∧
    Forall (λ w, w ≠ "" ∧ word f w) t.
Proof.
  induction s as [s IH] using string_length_ind.
  destruct s as [|c s].
  { split; [constructor|]. exists "", [], "".
    split; [done|]. split; [apply word_nil|]. split; [apply word_nil|constructor]. }
  assert (String c s ≠ "") as Hne by done.
  destruct (DecodeRuneInString (String c s)) as [r size] eqn:Hdec.
  pose proof (decode_drop_lt _ _ _ Hne Hdec) as Hlt.
  pose proof (decode_size _ _ _ Hne Hdec) as Hsize.
  destruct (IH _ Hlt) as (Hfields & h & t & b & Hdrop & Hh & Hopen & Ht).
  destruct (f r) eqn:Hr.
  - split.
    + by rewrite (fieldsFrom_step _ _ r size), Hr by done.
    + exists "", (fieldsFrom (drop_bytes size (String c s)) f None), (String c s).
      split; [done|]. split; [apply word_nil|]. split; [|done].
      intros u. rewrite (fieldsFrom_step _ _ r size), Hr by done.
      by rewrite string_app_nil_r.
  - pose proof (word_cons _ _ _ _ _ Hne Hdec Hr Hdrop Hh) as Hword.
    split.
    + rewrite (fieldsFrom_step _ _ r size), Hr by done. cbn [spanText].
      rewrite string_app_nil_l, Hopen. constructor; [|done]. split; [|done].
      intros Hnil. apply (f_equal String.length) in Hnil.
      rewrite length_app_string, length_take_bytes in Hnil. simpl in Hnil. lia.
    + exists (take_bytes size (String c s) +:+ h), t, b.
      split; [by rewrite string_app_assoc, <- Hdrop, take_drop_bytes|].
      split; [done|]. split; [|done].
      intros u. rewrite (fieldsFrom_step _ _ r size), Hr by done. cbn [spanText].
      by rewrite Hopen, string_app_assoc.
Qed.

(** A word that is not empty is its own single field. *)
Lemma word_FieldsFunc w :
  w ≠ "" → word f w → FieldsFunc w f = [w].
Proof.
  intros Hne Hw. unfold FieldsFunc.
  destruct (DecodeRuneInString w) as [r size] eqn:Hdec.
  destruct (f r) eqn:Hr.
  - specialize (Hw "x"). rewrite (fieldsFrom_step _ _ r size), Hr in Hw by done.
    injection Hw as Hw _. destruct w; [done|discriminate].
  - rewrite (fieldsFrom_None _ r size) by done. by rewrite Hw.
Qed.

(** No field is longer than the string and the open span together. *)
Lemma fieldsFrom_length s cur :
  Forall (λ w, (String.length w
                <= String.length (spanText cur) + String.length s)%nat)
         (fieldsFrom s f cur).
Proof.
  revert cur. induction s as [s IH] using string_length_ind. intros cur.
  destruct s as [|c s].
  { rewrite fieldsFrom_nil. destruct cur; repeat constructor. simpl. lia. }
  assert (String c s ≠ "") as Hne by done.
  destruct (DecodeRuneInString (String c s)) as [r size] eqn:Hdec.
  pose proof (decode_drop_lt _ _ _ Hne Hdec) as Hlt.
  pose proof (decode_size _ _ _ Hne Hdec) as Hsize.
  rewrite (fieldsFrom_step _ _ r size) by done.
  destruct (f r).
  - assert (Forall (λ w, (String.length w
               <= String.length (spanText cur) + String.length (String c s))%nat)
              (fieldsFrom (drop_bytes size (String c s)) f None)) as Hrest.
    { eapply Forall_impl; [apply (IH _ Hlt None)|]. intros w Hw.
      cbn [spanText] in Hw. change (String.length "") with 0%nat in Hw. lia. }
    destruct cur as [u|]; [constructor; [simpl; lia|]|]; done.
  - eapply Forall_impl; [apply (IH _ Hlt)|]. cbn [spanText]. intros w Hw.
    rewrite length_app_string, length_take_bytes in Hw.
    rewrite length_drop_bytes in Hw. cbn [String.length] in *. lia.
Qed.

(** A string that is its own single field is a word. *)
Lemma FieldsFunc_word w : FieldsFunc w f = [w] → w ≠ "" ∧ word f w.
Proof.
  unfold FieldsFunc. intros Hw.
  assert (w ≠ "") as Hne by (by intros ->).
  split; [done|].
  destruct (DecodeRuneInString w) as [r size] eqn:Hdec.
  pose proof (decode_drop_lt _ _ _ Hne Hdec) as Hlt.
  destruct (f r) eqn:Hr.
  - rewrite (fieldsFrom_step _ _ r size), Hr in Hw by done. cbn in Hw.
    pose proof (fieldsFrom_length (drop_bytes size w) None) as Hlen.
    rewrite Hw in Hlen. apply Forall_inv in Hlen. simpl in Hlen. lia.
  - rewrite (fieldsFrom_None _ r size) in Hw by done.
    destruct (proj2 (fieldsFrom_words w)) as (h & t & b & Hsplit & Hh & Hopen & _).
    rewrite Hopen, string_app_nil_l in Hw. by injection Hw as -> _.
Qed.

End FieldsFuncFacts.

Section FieldsFacts.
Import Utf8 Unicode.

Lemma setBits_nonneg s : 0 <= setBits s.
Proof.
  induction s as [|c s IH]; [done|]. simpl.
  apply Z.lor_nonneg. split; [apply byte_range|done].
Qed.

Lemma lor_lt_128 a b : 0 <= a → 0 <= b → Z.lor a b < 128 → a < 128.
Proof.
  intros Ha Hb Hlor.
  destruct (Z.eq_dec a 0) as [->|Hne]; [lia|].
  assert (0 < Z.lor a b) as Hpos.
  { pose proof (proj2 (Z.lor_nonneg a b) (conj Ha Hb)).
    destruct (Z.eq_dec (Z.lor a b) 0) as [H0%Z.lor_eq_0_iff|]; lia. }
  change 128 with (2 ^ 7) in *.
  apply Z.log2_lt_pow2; [lia|].
  apply Z.log2_lt_pow2 in Hlor; [|done].
  rewrite Z.log2_lor in Hlor by done. lia.
Qed.

(** [setBits] stays below [0x80] only when every byte does. *)
Lemma setBits_cons c s :
  setBits (String c s) < 128 → byte c < 128 ∧ setBits s < 128.
Proof.
  simpl. intros Hlt.
  pose proof (byte_range c) as Hc. pose proof (setBits_nonneg s) as Hs.
  split; [by apply (lor_lt_128 _ (setBits s)); try lia|].
  apply (lor_lt_128 _ (byte c)); try lia. by rewrite Z.lor_comm.
Qed.

(** Below [0x80] the white space of [unicode.IsSpace] is that of the
    table [asciiSpace]. *)
Lemma IsSpace_ascii c : byte c < 128 → IsSpace (byte c) = asciiSpace c.
Proof.
  intros Hc. pose proof (byte_range c) as Hrange.
  unfold IsSpace, asciiSpace.
  destruct (Z.leb_spec 0 (byte c)); [|lia].
  destruct (Z.leb_spec (byte c) 255); [|lia]. cbn [andb].
  destruct (Z.eqb_spec (byte c) 133); [lia|].
  destruct (Z.eqb_spec (byte c) 160); [lia|].
  by rewrite !orb_false_r.
Qed.

(** On a string of ASCII bytes the two paths of [Fields] agree. *)
Lemma fields_go_fieldsFrom s cur :
  setBits s < 128 → fields_go s cur = fieldsFrom s IsSpace cur.
Proof.
  revert cur. induction s as [|c s IH]; intros cur Hs.
  - by rewrite fieldsFrom_nil.
  - apply setBits_cons in Hs as [Hc Hs].
    rewrite (fieldsFrom_step _ _ _ (byte c) 1%nat); [|done|by apply decode_ascii].
    rewrite IsSpace_ascii by done. cbn [fields_go drop_bytes take_bytes].
    by rewrite !IH.
Qed.

(** [strings.Fields] splits at the white space of [unicode.IsSpace],
    whichever path it takes. *)
Lemma Fields_FieldsFunc s : Fields s = FieldsFunc s IsSpace.
Proof.
  unfold Fields. destruct (Z.leb_spec RuneSelf (setBits s)) as [|Hlt]; [done|].
  by apply fields_go_fieldsFrom.
Qed.

(** The first rune of a word is not white space, and what follows it is a
    word. *)
Lemma word_tail w r size :
  w ≠ "" → word IsSpace w → DecodeRuneInString w = (r, size) →
  IsSpace r = false ∧ word IsSpace (drop_bytes size w).
Proof.
  intros Hne Hw Hdec.
  assert (IsSpace r = false) as Hr.
  { destruct (IsSpace r) eqn:Hr; [|done]. specialize (Hw "x").
    rewrite (fieldsFrom_step _ _ _ r size), Hr in Hw by done.
    injection Hw as Hw _. destruct w; [done|discriminate]. }
  split; [done|].
  destruct (fieldsFrom_open IsSpace (drop_bytes size w)) as (h & t & Hopen).
  pose proof (Hw "") as Hw0.
  rewrite (fieldsFrom_step _ _ _ r size), Hr, Hopen in Hw0 by done.
  cbn [spanText] in Hw0. injection Hw0 as Hh ->.
  rewrite !string_app_nil_l in Hh.
  rewrite <- (take_drop_bytes size w) in Hh at 2.
  apply string_app_inv_head in Hh as ->. done.
Qed.

(** Scanning a word that is followed by a byte that cannot continue an
    encoding, or by nothing, only extends the span being read. *)
Lemma fieldsFrom_word_app w b u :
  word IsSpace w → (b = "" ∨ ∃ c b', b = String c b' ∧ (byte c < 128 ∨ 192 <= byte c)) →
  fieldsFrom (w +:+ b) IsSpace (Some u) = fieldsFrom b IsSpace (Some (u +:+ w)).
Proof.
  intros Hw Hb. revert u Hw.
  induction w as [w IH] using string_length_ind. intros u Hw.
  destruct w as [|c0 w]; [by rewrite string_app_nil_l, string_app_nil_r|].
  assert (String c0 w ≠ "") as Hne by done.
  destruct (DecodeRuneInString (String c0 w)) as [r size] eqn:Hdec.
  pose proof (decode_drop_lt _ _ _ Hne Hdec) as Hlt.
  pose proof (decode_size _ _ _ Hne Hdec) as Hsize.
  destruct (word_tail _ _ _ Hne Hw Hdec) as [Hr Htail].
  assert (DecodeRuneInString (String c0 w +:+ b) = (r, size)) as Hdec'.
  { destruct Hb as [->|(c & b' & -> & Hc)]; [by rewrite string_app_nil_r|].
    by rewrite decode_extend. }
  rewrite (fieldsFrom_step _ _ _ r size); [|by rewrite string_app_cons|done].
  rewrite Hr. cbn [spanText].
  rewrite drop_bytes_app, take_bytes_app by lia.
  rewrite (IH _ Hlt) by done.
  by rewrite string_app_assoc, take_drop_bytes.
Qed.

(** A line that reads [module M], alone or followed by white space and
    anything else, has [M] as its second field. *)
Lemma Fields_declaration M tail :
  Fields M = [M] →
  (tail = "" ∨ IsSpace (DecodeRuneInString tail).1 = true) →
  Fields ("module " +:+ M +:+ tail) !! 1%nat = Some M.
Proof.
  rewrite !Fields_FieldsFunc. intros [Hne HM]%FieldsFunc_word Htail.
  assert (word IsSpace "module") as Hmodule
    by (by apply FieldsFunc_word).
  unfold FieldsFunc.
  change ("module " +:+ M +:+ tail) with ("module" +:+ String " " (M +:+ tail)).
  rewrite (fieldsFrom_None _ _ (byte "m") 1%nat) by done.
  rewrite fieldsFrom_word_app; [|done|right; eexists _, _; split; [done|by left]].
  rewrite (fieldsFrom_step _ _ _ (byte " ") 1%nat) by done.
  cbn [IsSpace endSpan drop_bytes lookup list_lookup]. change (IsSpace (byte " ")) with true.
  cbn [endSpan lookup list_lookup].
  assert (tail = "" ∨ ∃ c b', tail = String c b' ∧ (byte c < 128 ∨ 192 <= byte c))
    as Htail'.
  { destruct Htail as [->|Hsp]; [by left|]. destruct tail as [|c b']; [by left|].
    right. exists c, b'. split; [done|]. by apply decode_space_start in Hsp. }
  destruct (DecodeRuneInString M) as [r size] eqn:Hdec.
  destruct (word_tail _ _ _ Hne HM Hdec) as [Hr _].
  assert (DecodeRuneInString (M +:+ tail) = (r, size)) as Hdec'.
  { destruct Htail' as [->|(c & b' & -> & Hc)]; [by rewrite string_app_nil_r|].
    by rewrite decode_extend. }
  assert (M +:+ tail ≠ "") as Hne' by (by destruct M).
  rewrite (fieldsFrom_None _ _ r size) by done.
  rewrite fieldsFrom_word_app by done. rewrite string_app_nil_l.
  destruct Htail as [->|Hsp]; [by rewrite fieldsFrom_nil|].
  destruct tail as [|c b']; [by rewrite fieldsFrom_nil|].
  destruct (DecodeRuneInString (String c b')) as [r' size'] eqn:Hdect.
  rewrite (fieldsFrom_step _ _ _ r' size') by done.
  cbn [fst] in Hsp. by rewrite Hsp.
Qed.

(** Every field is a word of its own: it is not empty and splitting it
    gives it back. *)
Lemma Fields_words s : Forall (λ w, w ≠ "" ∧ Fields w = [w]) (Fields s).
Proof.
  rewrite Fields_FieldsFunc.
  eapply Forall_impl; [apply (proj1 (fieldsFrom_words IsSpace s))|].
  intros w [Hne Hw]. split; [done|].
  rewrite Fields_FieldsFunc. by apply word_FieldsFunc.
Qed.

End FieldsFacts.

Section ResolverFacts.
Import Utf8 Unicode.

(** What the loop of [readModuleName] finds is the second field of a line
    that begins, once trimmed, with the keyword and a space. *)
Lemma findModuleLine_found lines name :
  findModuleLine lines = Some name →
  ∃ line, line ∈ lines ∧ HasPrefix (TrimSpace line) "module " = true ∧
    Fields (TrimSpace line) !! 1%nat = Some name.
Proof.
  induction lines as [|line lines IH]; [done|]. cbn [findModuleLine]. intros Hfound.
  assert (findModuleLine lines = Some name → ∃ line0, line0 ∈ line :: lines ∧
            HasPrefix (TrimSpace line0) "module " = true ∧
            Fields (TrimSpace line0) !! 1%nat = Some name) as Hrest.
  { intros (line0 & Hin & Hprefix & Hfield)%IH. exists line0.
    split; [apply elem_of_cons; by right|done]. }
  destruct (HasPrefix (TrimSpace line) "module ") eqn:Hprefix; cbn [negb] in Hfound;
    [|by apply Hrest].
  destruct (Fields (TrimSpace line)) as [|f0 [|f1 fs]] eqn:Hfields;
    [by apply Hrest..|].
  injection Hfound as <-. exists line.
  split; [apply elem_of_cons; by left|]. split; [done|]. by rewrite Hfields.
Qed.

Lemma findModuleLine_none lines :
  Forall (λ line, HasPrefix (TrimSpace line) "module " = false) lines →
  findModuleLine lines = None.
Proof.
  induction 1 as [|line lines Hline _ IH]; [done|].
  cbn [findModuleLine]. by rewrite Hline.
Qed.

(** A line that, trimmed, is made of the keyword, a space, a word and then
    nothing or something that begins with white space declares that
    word. *)
Lemma findModuleLine_declaration line M tail others :
  TrimSpace line = "module " +:+ M +:+ tail →
  Fields M = [M] →
  (tail = "" ∨ IsSpace (DecodeRuneInString tail).1 = true) →
  findModuleLine (line :: others) = Some M.
Proof.
  intros Htrim HM Htail. cbn [findModuleLine]. rewrite Htrim.
  change (HasPrefix ("module " +:+ M +:+ tail) "module ") with true. cbn [negb].
  pose proof (Fields_declaration M tail HM Htail) as Hfield.
  destruct (Fields ("module " +:+ M +:+ tail)) as [|f0 [|f1 fs]]; [done..|].
  by injection Hfield as ->.
Qed.

(** The first declaration decides, whatever the later lines say. *)
Lemma findModuleLine_first before line after M tail :
  Forall (λ l, HasPrefix (TrimSpace l) "module " = false) before →
  TrimSpace line = "module " +:+ M +:+ tail →
  Fields M = [M] →
  (tail = "" ∨ IsSpace (DecodeRuneInString tail).1 = true) →
  findModuleLine (before ++ line :: after) = Some M.
Proof.
  intros Hbefore Htrim HM Htail.
  induction Hbefore as [|l before Hl _ IH].
  - by apply (findModuleLine_declaration line M tail).
  - rewrite <- app_comm_cons. cbn [findModuleLine]. by rewrite Hl.
Qed.

(** White space is that of Unicode: a declaration indented by a no-break
    space is found, and a no-break space ends the module name. *)
Lemma readModuleName_unicode_space :
  readModuleName
    (Examples.fileEnv (Examples.nbsp +:+ "module example.com/app")) "go.mod"
  = Ok "example.com/app" ∧
  readModuleName
    (Examples.fileEnv ("module example.com/app" +:+ Examples.nbsp +:+ "// c"))
    "go.mod"
  = Ok "example.com/app".
Proof. split; reflexivity. Qed.

End ResolverFacts.





(** * Further properties of the code *)

(** ** Pages *)

Section PageFacts.

Lemma Contains_byte_app c a b :
  Contains (a +:+ b) (String c "")
  = Contains a (String c "") || Contains b (String c "").
Proof.
  induction a as [|x a IH]; [by destruct b|].
  change (String x a +:+ b) with (String x (a +:+ b)).
  rewrite !Contains_byte_cons, IH. by rewrite orb_assoc.
Qed.

Lemma pretty_N_char_no_newline x : Ascii.eqb (pretty_N_char x) nl = false.
Proof. unfold pretty_N_char. by repeat case_match. Qed.

Lemma pretty_N_go_no_newline x s :
  Contains s NL = false → Contains (pretty_N_go x s) NL = false.
Proof.
  revert s. induction (N.lt_wf_0 x) as [x _ IH]; intros s Hs.
  destruct (decide (x = 0)%N) as [->|Hx]; [by rewrite pretty_N_go_0|].
  rewrite pretty_N_go_step by lia. apply IH.
  - apply N.div_lt; lia.
  - unfold NL. by rewrite Contains_byte_cons, pretty_N_char_no_newline.
Qed.

(** A number printed by [%d] has no newline in it. *)
Lemma pretty_Z_no_newline (z : Z) : Contains (pretty z) NL = false.
Proof.
  assert (∀ n : N, Contains (pretty n) NL = false) as HN.
  { intros n. unfold pretty, pretty_N. case_decide; [done|].
    by apply pretty_N_go_no_newline. }
  destruct z as [|q|q]; [done|apply HN|].
  change (pretty (Z.neg q)) with ("-" +:+ pretty (N.pos q)).
  unfold NL. rewrite Contains_byte_app. apply orb_false_iff. split; [done|apply HN].
Qed.

Lemma metadata_no_newline page totalPages start end_ totalLines :
  Contains (metadata page totalPages start end_ totalLines) NL = false.
Proof.
  unfold metadata, NL.
  repeat (rewrite Contains_byte_app; apply orb_false_iff; split;
          [done || apply pretty_Z_no_newline|]).
  done.
Qed.

(** The pieces of a split do not contain the separator. *)
Lemma SplitByte_pieces_free s sep :
  Forall (λ l, Contains l (String sep "") = false) (SplitByte s sep).
Proof.
  induction s as [|c s IH]; simpl; [by repeat constructor|].
  destruct (Ascii.eqb_spec c sep) as [->|Hne]; [by constructor|].
  pose proof (SplitByte_nonempty s sep) as Hnonempty.
  destruct (SplitByte s sep) as [|l ls]; [done|].
  inversion IH as [|? ? Hl Hls]; subst. constructor; [|done].
  rewrite Contains_byte_cons, Hl.
  by destruct (Ascii.eqb_spec c sep).
Qed.

Lemma IndexByte_app_sep h t c :
  Contains h (String c "") = false →
  IndexByte (h +:+ String c t) c = Z.of_nat (String.length h) ∧
  take_bytes (String.length h) (h +:+ String c t) = h.
Proof.
  induction h as [|x h IH]; intros Hfree.
  - simpl. by rewrite Ascii.eqb_refl.
  - apply free_cons in Hfree as [Hx Hh]. destruct (IH Hh) as [Hi Ht].
    change (String x h +:+ String c t) with (String x (h +:+ String c t)).
    simpl. destruct (Ascii.eqb_spec x c); [done|]. rewrite Hi, Ht.
    split; [|done]. destruct (Z.ltb_spec (Z.of_nat (String.length h)) 0); lia.
Qed.

Lemma firstLine_header h rest :
  Contains h NL = false → firstLine (h +:+ NL +:+ rest) = h.
Proof.
  intros Hh. unfold firstLine.
  change (h +:+ NL +:+ rest) with (h +:+ String nl rest).
  destruct (IndexByte_app_sep h rest nl Hh) as [-> Ht].
  destruct (Z.leb_spec 0 (Z.of_nat (String.length h))); [|lia].
  by rewrite Nat2Z.id.
Qed.

End PageFacts.

(** The text of a page in range is the header, an empty line and the
    lines of the page, each on a line of its own. *)
Lemma paginate_output_split content page pageSize :
  1 <= pageSize <= GoInt.maxInt →
  Z.of_nat (String.length content) < 2 ^ 62 →
  let lines := SplitByte content nl in
  let L := Z.of_nat (length lines) in
  let p := clampPage page in
  let header := metadata p ((L + pageSize - 1) / pageSize) (pageStart p pageSize)
                  (pageEnd p pageSize L) L in
  p <= (L + pageSize - 1) / pageSize →
  ∃ out, paginate content page pageSize = Ok out ∧
    SplitByte out nl
    = header :: "" ::
      take (Z.to_nat pageSize) (drop (Z.to_nat ((p - 1) * pageSize)) lines) ∧
    firstLine out = header.
Proof.
  intros Hps Hlen lines L p header Hp. subst header.
  assert (1 <= p <= (L + pageSize - 1) / pageSize) as Hp'
    by (split; [unfold p, clampPage; destruct (Z.ltb_spec page 1); lia|done]).
  eexists. split; [apply (paginate_in_range content pageSize Hps Hlen page Hp)|].
  cbv zeta. fold lines L p.
  set (header := metadata p _ _ _ L).
  assert (Contains header NL = false) as Hheader by apply metadata_no_newline.
  pose proof (pageLines_eq content pageSize Hps Hlen p Hp') as Hlines.
  fold lines in Hlines.
  split; [|by apply firstLine_header].
  change (header +:+ NL +:+ NL +:+ Join (pageLines content p pageSize) NL)
    with (header +:+ String nl ("" +:+ String nl (Join (pageLines content p pageSize) NL))).
  rewrite SplitByte_app_sep by done. f_equal.
  rewrite SplitByte_app_sep by done. f_equal.
  rewrite <- Hlines. apply SplitByte_Join.
  - by apply pageLines_nonempty.
  - rewrite Hlines. apply Forall_take, Forall_drop, SplitByte_pieces_free.
Qed.



(** X2. For a positive page size, every page that [paginate] serves, that
    is the lines of its text behind the header and the empty line, has at
    least one line and at most [pageSize] lines; every page before the last
    has exactly [pageSize] lines, and the last has the lines that remain. *)
Theorem paginate_page_length (content : string) (p pageSize : Z) :
  1 <= pageSize <= GoInt.maxInt →
  Z.of_nat (String.length content) < 2 ^ 62 →
  let L := Z.of_nat (length (SplitByte content nl)) in
  1 <= p <= ceilDiv L pageSize →
  ∃ out header body,
    paginate content p pageSize = Ok out ∧
    SplitByte out nl = header :: "" :: body ∧
    let n := Z.of_nat (length body) in
    1 <= n <= pageSize ∧
    n = Z.min pageSize (L - (p - 1) * pageSize) ∧
    (p < ceilDiv L pageSize → n = pageSize).
Proof.
  intros Hps Hlen L Hp.
  rewrite <- (ceilDiv_eq L pageSize) in * by lia.
  assert (clampPage p = p) as Hclamp
    by (unfold clampPage; destruct (Z.ltb_spec p 1); lia).
  destruct (paginate_output_split content p pageSize Hps Hlen)
    as (out & Hout & Hsplit & _); [fold L; rewrite Hclamp; lia|].
  rewrite Hclamp in Hsplit. fold L in Hsplit.
  eexists out, _, _. split; [done|]. split; [exact Hsplit|]. cbv zeta.
  pose proof (totalPages_spec content pageSize Hps Hlen) as (HT1 & HT2).
  fold L in HT1, HT2.
  rewrite length_take, length_drop. fold L.
  assert (0 <= (p - 1) * pageSize <= ((L + pageSize - 1) / pageSize - 1) * pageSize)
    by nia.
  unfold L in *. split; [lia|]. split; [lia|].
  intros Hlt.
  assert (p * pageSize <= ((Z.of_nat (length (SplitByte content nl))
                            + pageSize - 1) / pageSize - 1) * pageSize) by nia.
  lia.
Qed.

Lemma paginate_page_length_witness :
  (1 <= 2 <= GoInt.maxInt) ∧
  Z.of_nat (String.length Examples.threeLines) < 2 ^ 62 ∧
  (∃ out header body,
     paginate Examples.threeLines 1 2 = Ok out ∧
     SplitByte out nl = header :: "" :: body ∧
     Z.of_nat (length body) = 2) ∧
  (∃ out header body,
     paginate Examples.threeLines 2 2 = Ok out ∧
     SplitByte out nl = header :: "" :: body ∧
     Z.of_nat (length body) = Z.min 2 (3 - (2 - 1) * 2)).
Proof.
  assert (1 <= 2 <= GoInt.maxInt) as Hps by (unfold GoInt.maxInt; lia).
  assert (Z.of_nat (String.length Examples.threeLines) < 2 ^ 62) as Hlen
    by (vm_compute; reflexivity).
  split; [exact Hps|]. split; [exact Hlen|]. split.
  - destruct (paginate_page_length Examples.threeLines 1 2 Hps Hlen
                ltac:(vm_compute; split; discriminate))
      as (out & header & body & Hout & Hsplit & _ & _ & Hfull).
    exists out, header, body. split; [exact Hout|]. split; [exact Hsplit|].
    exact (Hfull eq_refl).
  - destruct (paginate_page_length Examples.threeLines 2 2 Hps Hlen
                ltac:(vm_compute; split; discriminate))
      as (out & header & body & Hout & Hsplit & _ & Hmin & _).
    exists out, header, body. split; [exact Hout|]. split; [exact Hsplit|].
    exact Hmin.
Defined.

(** X3. A content with no more lines than the page size is one page: page 1
    (and every page number below it) returns the header
    [Page 1 of 1 (showing lines 1-L of L)], an empty line and the content,
    byte for byte; every page number above 1 is an error. *)
Theorem paginate_single_page (content : string) (page pageSize : Z) :
  1 <= pageSize <= GoInt.maxInt →
  Z.of_nat (String.length content) < 2 ^ 62 →
  let L := Z.of_nat (length (SplitByte content nl)) in
  L <= pageSize →
  (page <= 1 →
     paginate content page pageSize
     = Ok (metadata 1 1 0 L L +:+ NL +:+ NL +:+ content)) ∧
  (1 < page → is_error (paginate content page pageSize) = true).
Proof.
  intros Hps Hlen L Hfit. subst L.
  pose proof (totalLines_bounds content pageSize Hlen) as HL.
  assert ((Z.of_nat (length (SplitByte content nl)) + pageSize - 1) / pageSize = 1)
    as HT.
  { symmetry.
    apply Z.div_unique with (r := Z.of_nat (length (SplitByte content nl)) - 1);
      lia. }
  split.
  - intros Hpage.
    assert (clampPage page = 1) as Hclamp
      by (unfold clampPage; destruct (Z.ltb_spec page 1); lia).
    rewrite (paginate_in_range content pageSize Hps Hlen page);
      rewrite HT, Hclamp; [|lia]. cbv zeta.
    rewrite (pageStart_eq content pageSize Hps Hlen 1) by lia.
    rewrite (pageEnd_eq content pageSize Hps Hlen 1) by lia.
    rewrite (pageLines_eq content pageSize Hps Hlen 1) by lia.
    replace ((1 - 1) * pageSize) with 0 by lia.
    replace (Z.min (1 * pageSize) (Z.of_nat (length (SplitByte content nl))))
      with (Z.of_nat (length (SplitByte content nl))) by lia.
    change (Z.to_nat 0) with 0%nat. rewrite drop_0.
    rewrite take_ge by lia.
    by rewrite Join_SplitByte.
  - intros Hpage.
    rewrite (paginate_beyond content pageSize Hps Hlen page); [done|].
    rewrite HT. unfold clampPage. destruct (Z.ltb_spec page 1); lia.
Qed.

Lemma paginate_single_page_witness :
  (1 <= 1000 <= GoInt.maxInt) ∧
  Z.of_nat (String.length Examples.threeLines) < 2 ^ 62 ∧
  Z.of_nat (length (SplitByte Examples.threeLines nl)) <= 1000 ∧
  paginate Examples.threeLines 1 1000
  = Ok ("Page 1 of 1 (showing lines 1-3 of 3)" +:+ NL +:+ NL +:+
        Examples.threeLines).
Proof.
  assert (1 <= 1000 <= GoInt.maxInt) as Hps by (unfold GoInt.maxInt; lia).
  assert (Z.of_nat (String.length Examples.threeLines) < 2 ^ 62) as Hlen
    by (vm_compute; reflexivity).
  assert (Z.of_nat (length (SplitByte Examples.threeLines nl)) <= 1000) as Hfit
    by (vm_compute; discriminate).
  split; [exact Hps|]. split; [exact Hlen|]. split; [exact Hfit|].
  exact (proj1 (paginate_single_page Examples.threeLines 1 1000 Hps Hlen Hfit)
           ltac:(lia)).
Defined.

(** ** Module descriptors *)

(** X4. A module name that [readModuleName] returns is one word: it is not
    empty and has no white space in it, so that splitting it at white space
    gives it back alone. It is the second field of a line of the file that
    begins, once trimmed, with [module] and a space. *)
Theorem readModuleName_token (env : Env) (goModPath M : string) :
  readModuleName env goModPath = Ok M →
  M ≠ "" ∧ Fields M = [M] ∧
  ∃ content line,
    os_ReadFile env goModPath = Ok content ∧
    line ∈ SplitByte content nl ∧
    HasPrefix (TrimSpace line) "module " = true ∧
    Fields (TrimSpace line) !! 1%nat = Some M.
Proof.
  unfold readModuleName. intros Hread.
  destruct (os_ReadFile env goModPath) as [content|err|msg]; [|done..].
  destruct (findModuleLine (SplitByte content nl)) as [name|] eqn:Hfind; [|done].
  injection Hread as ->.
  apply findModuleLine_found in Hfind as (line & Hin & Hprefix & Hfield).
  pose proof (Fields_words (TrimSpace line)) as Hwords.
  rewrite Forall_lookup in Hwords. destruct (Hwords _ _ Hfield) as [Hne HM].
  split; [done|]. split; [done|]. exists content, line.
  split; [reflexivity|]. split; [exact Hin|]. split; [exact Hprefix|exact Hfield].
Qed.

Lemma readModuleName_token_witness :
  readModuleName (Examples.fileEnv Examples.indentedGoMod) "go.mod"
    = Ok "github.com/test/pkg" ∧
  "github.com/test/pkg" ≠ "" ∧
  Fields "github.com/test/pkg" = ["github.com/test/pkg"].
Proof.
  assert (readModuleName (Examples.fileEnv Examples.indentedGoMod) "go.mod"
          = Ok "github.com/test/pkg") as Hread by reflexivity.
  split; [exact Hread|].
  destruct (readModuleName_token _ "go.mod" "github.com/test/pkg" Hread)
    as (Hne & HM & _).
  split; [exact Hne|exact HM].
Defined.

(** X5. The first module declaration of a [go.mod] decides: when the lines
    before it are no declarations, a line that reads, trimmed of the white
    space around it, [module M] for a word [M], alone or followed by white
    space and anything else (a comment), makes [readModuleName] return [M],
    whatever the lines after it say. White space is that of Unicode: the
    line may be indented by a no-break space, and the comment set off by
    an ideographic space. *)
Theorem readModuleName_first_declaration (env : Env)
    (goModPath content line M tail : string) (before after : list string) :
  os_ReadFile env goModPath = Ok content →
  SplitByte content nl = before ++ line :: after →
  Forall (λ l, HasPrefix (TrimSpace l) "module " = false) before →
  TrimSpace line = "module " +:+ M +:+ tail →
  Fields M = [M] →
  (tail = "" ∨ Unicode.IsSpace (Utf8.DecodeRuneInString tail).1 = true) →
  readModuleName env goModPath = Ok M.
Proof.
  intros Hfile Hlines Hbefore Htrim HM Htail.
  unfold readModuleName. rewrite Hfile, Hlines.
  by rewrite (findModuleLine_first before line after M tail).
Qed.

Lemma readModuleName_first_declaration_witness :
  readModuleName (Examples.fileEnv Examples.commentedGoMod) "go.mod"
    = Ok "github.com/test/pkg" ∧
  readModuleName (Examples.fileEnv Examples.indentedGoMod) "go.mod"
    = Ok "github.com/test/pkg".
Proof.
  split.
  - apply (readModuleName_first_declaration _ _ Examples.commentedGoMod
             "module github.com/test/pkg // some comment"
             "github.com/test/pkg" " // some comment"
             ["// Code generated"] ["module other"; ""]).
    + reflexivity.
    + reflexivity.
    + repeat constructor.
    + reflexivity.
    + reflexivity.
    + right. reflexivity.
  - apply (readModuleName_first_declaration _ _ Examples.indentedGoMod
             (String "009" Examples.nbsp +:+ "module github.com/test/pkg" +:+
              Examples.ideographicSpace +:+ "// some comment ")
             "github.com/test/pkg"
             (Examples.ideographicSpace +:+ "// some comment")
             ["// Code generated"] ["module other"; ""]).
    + reflexivity.
    + reflexivity.
    + repeat constructor.
    + reflexivity.
    + reflexivity.
    + right. reflexivity.
Defined.

(** X6. [readModuleName] fails, naming the file, when the file cannot be
    read and when none of its lines begins, once trimmed, with [module] and
    a space: a file that holds only [go 1.21], or one that separates the
    keyword from the name by a tab, has no module declaration. *)
Theorem readModuleName_errors (env : Env) (goModPath : string) :
  (∀ err, os_ReadFile env goModPath = Error err →
     readModuleName env goModPath
     = Error ("failed to read " +:+ goModPath +:+ ": " +:+ err)) ∧
  (∀ content,
     os_ReadFile env goModPath = Ok content →
     Forall (λ line, HasPrefix (TrimSpace line) "module " = false)
            (SplitByte content nl) →
     readModuleName env goModPath
     = Error ("no module declaration found in " +:+ goModPath)).
Proof.
  split.
  - intros err Hfile. unfold readModuleName. by rewrite Hfile.
  - intros content Hfile Hlines. unfold readModuleName.
    by rewrite Hfile, (findModuleLine_none _ Hlines).
Qed.

Lemma readModuleName_errors_witness :
  readModuleName Examples.env "/nonexistent/go.mod"
  = Error ("failed to read /nonexistent/go.mod: " +:+
           "open /nonexistent/go.mod: no such file or directory") ∧
  readModuleName
    (Examples.fileEnv Examples.tabbedGoMod) "go.mod"
  = Error "no module declaration found in go.mod".
Proof.
  split.
  - apply (proj1 (readModuleName_errors Examples.env "/nonexistent/go.mod")).
    reflexivity.
  - apply (proj2 (readModuleName_errors _ "go.mod") Examples.tabbedGoMod);
      [reflexivity|repeat constructor].
Defined.

(** ** Absolute references and the provisioner *)

(** X7. For a reference that begins with [/]: when a working directory is
    given and is not the same string, [validatePath] fails with the
    mismatch error without reading any file; otherwise it reads [go.mod] in
    the referenced directory itself and resolves to the module that file
    declares in its first line that reads, trimmed, [module M], and fails
    when no line of the file begins, once trimmed, with [module] and a
    space. It never joins anything to the module name and never lists
    sub-directories. *)
Theorem validatePath_absolute (env : Env) (pkgPath workingDir : string) :
  HasPrefix pkgPath "/" = true →
  let goMod := Path.filepath_Join [pkgPath; "go.mod"] in
  (workingDir ≠ "" → workingDir ≠ pkgPath →
     validatePath env pkgPath workingDir = (Error errContextMismatch, None)) ∧
  (workingDir = "" ∨ workingDir = pkgPath →
     (∀ content line M tail before after,
        os_ReadFile env goMod = Ok content →
        SplitByte content nl = before ++ line :: after →
        Forall (λ l, HasPrefix (TrimSpace l) "module " = false) before →
        TrimSpace line = "module " +:+ M +:+ tail →
        Fields M = [M] →
        (tail = "" ∨ Unicode.IsSpace (Utf8.DecodeRuneInString tail).1 = true) →
        validatePath env pkgPath workingDir = (Ok M, None)) ∧
     (∀ content,
        os_ReadFile env goMod = Ok content →
        Forall (λ line, HasPrefix (TrimSpace line) "module " = false)
               (SplitByte content nl) →
        validatePath env pkgPath workingDir
        = (Error ("failed to read go.mod: no module declaration found in "
                  +:+ goMod), None))).
Proof.
  intros Hslash goMod.
  assert (HasPrefix pkgPath "." = false) as Hdot.
  { destruct pkgPath as [|c rest]; [done|]. simpl in *.
    destruct (Ascii.eqb_spec c "/") as [->|]; [done|discriminate]. }
  unfold validatePath. rewrite Hdot, Hslash. cbn [orb]. split.
  - intros Hwd Hne.
    apply String.eqb_neq in Hwd. rewrite Hwd.
    assert (String.eqb pkgPath workingDir = false) as ->
      by (apply String.eqb_neq; congruence).
    done.
  - intros Hwd.
    assert (negb (String.eqb workingDir "") &&
            negb (String.eqb pkgPath workingDir) = false) as ->.
    { destruct Hwd as [->| ->]; [done|].
      rewrite String.eqb_refl. apply andb_false_r. }
    fold goMod. unfold readModuleName. split.
    + intros content line M tail before after Hfile Hlines Hbefore Htrim HM Htail.
      rewrite Hfile, Hlines.
      by rewrite (findModuleLine_first before line after M tail).
    + intros content Hfile Hlines.
      by rewrite Hfile, (findModuleLine_none _ Hlines).
Qed.

Lemma validatePath_absolute_witness :
  HasPrefix "/w" "/" = true ∧
  validatePath Examples.env "/w" "/elsewhere" = (Error errContextMismatch, None) ∧
  validatePath Examples.env "/w" "/w" = (Ok "example.com/app", None).
Proof.
  assert (HasPrefix "/w" "/" = true) as Hslash by reflexivity.
  split; [exact Hslash|]. split.
  - exact (proj1 (validatePath_absolute Examples.env "/w" "/elsewhere" Hslash)
             ltac:(discriminate) ltac:(discriminate)).
  - refine (proj1 (proj2 (validatePath_absolute Examples.env "/w" "/w" Hslash)
              (or_intror eq_refl))
              Examples.goMod "module example.com/app" "example.com/app" ""
              [] [""; "go 1.21"; ""]
              eq_refl eq_refl _ eq_refl eq_refl (or_introl eq_refl)).
    constructor.
Defined.

Section CutFacts.

Lemma CutByte_app_sep a b sep :
  Contains a (String sep "") = false →
  CutByte (a +:+ String sep b) sep = (a, b, true).
Proof.
  induction a as [|x a IH]; intros Hfree.
  - simpl. by rewrite Ascii.eqb_refl.
  - apply free_cons in Hfree as [Hx Ha].
    change (String x a +:+ String sep b) with (String x (a +:+ String sep b)).
    simpl. destruct (Ascii.eqb_spec x sep); [done|]. by rewrite IH.
Qed.

Lemma CutByte_free a sep :
  Contains a (String sep "") = false → CutByte a sep = (a, "", false).
Proof.
  induction a as [|x a IH]; intros Hfree; [done|].
  apply free_cons in Hfree as [Hx Ha]. simpl.
  destruct (Ascii.eqb_spec x sep); [done|]. by rewrite IH.
Qed.

End CutFacts.

(** X8. [isStdLib] looks at the first path element only: a path is taken
    for a standard-library package exactly when no dot occurs before its
    first slash, whatever follows the slash. *)
Theorem isStdLib_first_element (first rest : string) :
  Contains first "/" = false →
  isStdLib first = negb (Contains first ".") ∧
  isStdLib (first +:+ "/" +:+ rest) = negb (Contains first ".").
Proof.
  intros Hfirst. unfold isStdLib. split.
  - by rewrite (CutByte_free first Path.slash Hfirst).
  - change (first +:+ "/" +:+ rest) with (first +:+ String Path.slash rest).
    by rewrite (CutByte_app_sep first rest Path.slash Hfirst).
Qed.

Lemma isStdLib_first_element_witness :
  Contains "golang.org" "/" = false ∧
  isStdLib "golang.org/x/net" = false ∧
  Contains "net" "/" = false ∧
  isStdLib "net/http.v2" = true.
Proof.
  assert (Contains "golang.org" "/" = false) as H1 by reflexivity.
  assert (Contains "net" "/" = false) as H2 by reflexivity.
  split; [exact H1|].
  split; [exact (proj2 (isStdLib_first_element "golang.org" "x/net" H1))|].
  split; [exact H2|].
  exact (proj2 (isStdLib_first_element "net" "http.v2" H2)).
Defined.

(** X9. [createTempProject] leaves no directory behind when it fails and
    does not touch the one it returns: when the temporary directory could
    be created, a failure ends with the removal of that directory, a
    success returns that directory and removes nothing; every command it
    runs is [go], run inside that directory, [go mod init] first; and for a
    standard-library path nothing but [go mod init] is run. When the
    directory cannot be created it fails without running anything. *)
Theorem createTempProject_cleanup (env : Env) (tr : list Event)
    (importPath : string) :
  let r := createTempProject env tr importPath in
  (∀ err, os_MkdirTemp env = Error err → is_error r.1 = true ∧ r.2 = tr) ∧
  (∀ tempDir, os_MkdirTemp env = Ok tempDir →
     let init := {| cmd_name := "go"; cmd_args := ["mod"; "init"; "godoc-temp"];
                    cmd_dir := tempDir |} in
     ∃ new, r.2 = tr ++ EvExec init :: new ∧
       (∀ cmd, EvExec cmd ∈ new →
          cmd = {| cmd_name := "go"; cmd_args := ["get"; importPath];
                   cmd_dir := tempDir |} ∧ isStdLib importPath = false) ∧
       (∀ d, r.1 = Ok d → d = tempDir ∧ ∀ dir, EvRemoveAll dir ∉ new) ∧
       (is_error r.1 = true → last new = Some (EvRemoveAll tempDir) ∧
          ∀ dir, EvRemoveAll dir ∈ new → dir = tempDir) ∧
       is_fault r.1 = false).
Proof.
  intros r. subst r. unfold createTempProject. split.
  - intros err ->. done.
  - intros tempDir ->. cbv zeta.
    destruct (exec_err (CombinedOutput env _)) as [err|].
    { exists [EvRemoveAll tempDir]. split; [by rewrite <- app_assoc|].
      split; [by intros cmd [=]%list_elem_of_singleton|].
      split; [done|]. split; [|done]. intros _. split; [done|].
      by intros dir [= ->]%list_elem_of_singleton. }
    destruct (isStdLib importPath) eqn:Hstd; simpl negb; cbv iota.
    { exists []. split; [done|]. split; [by intros cmd ?%elem_of_nil|].
      split; [|done]. intros d [= <-]. split; [done|]. intros dir. apply not_elem_of_nil. }
    destruct (exec_err (CombinedOutput env _)) as [err|].
    + eexists [_; EvRemoveAll tempDir]. split; [by rewrite <- !app_assoc|].
      split.
      { intros cmd Hin. apply elem_of_cons in Hin as [[= ->]|Hin]; [done|].
        by apply list_elem_of_singleton in Hin. }
      split; [done|]. split; [|done]. intros _. split; [done|].
      intros dir Hin. apply elem_of_cons in Hin as [?|Hin]; [done|].
      by apply list_elem_of_singleton in Hin as [= ->].
    + eexists [_]. split; [by rewrite <- app_assoc|]. split.
      { by intros cmd [= ->]%list_elem_of_singleton. }
      split; [|done]. intros d [= <-]. split; [done|].
      by intros dir ?%list_elem_of_singleton.
Qed.

Lemma createTempProject_cleanup_witness :
  os_MkdirTemp Examples.failingEnv = Ok "/tmp/godoc-mcp-1" ∧
  is_error (createTempProject Examples.failingEnv [] "io").1 = true ∧
  ∃ new, (createTempProject Examples.failingEnv [] "io").2
         = [] ++ EvExec {| cmd_name := "go";
                           cmd_args := ["mod"; "init"; "godoc-temp"];
                           cmd_dir := "/tmp/godoc-mcp-1" |} :: new ∧
    last new = Some (EvRemoveAll "/tmp/godoc-mcp-1").
Proof.
  assert (os_MkdirTemp Examples.failingEnv = Ok "/tmp/godoc-mcp-1") as Hdir
    by reflexivity.
  split; [exact Hdir|]. split; [reflexivity|].
  destruct (proj2 (createTempProject_cleanup Examples.failingEnv [] "io")
              "/tmp/godoc-mcp-1" Hdir) as (new & Htrace & _ & _ & Hfail & _).
  exists new. split; [exact Htrace|]. exact (proj1 (Hfail eq_refl)).
Defined.

(** ** The request handler *)

Section HandlerFacts.

(** The allow-list holds the five flags and nothing else. *)
Lemma flagAllowed_iff f :
  flagAllowed f = true ↔ f ∈ ["-all"; "-src"; "-u"; "-short"; "-c"].
Proof.
  unfold flagAllowed, allowedFlags. split.
  - intros Hallowed.
    destruct (decide (f ∈ ["-all"; "-src"; "-u"; "-short"; "-c"])) as [|Hout];
      [done|].
    rewrite !not_elem_of_cons in Hout. destruct Hout as (?&?&?&?&?&_).
    rewrite !lookup_insert_ne, lookup_singleton_ne in Hallowed by done. done.
  - intros Hin.
    repeat (apply elem_of_cons in Hin as [->|Hin]; [reflexivity|]).
    by apply elem_of_nil in Hin.
Qed.

Lemma find_disallowed cmdFlags :
  List.find (λ f, negb (flagAllowed f)) cmdFlags = None ↔
  forallb flagAllowed cmdFlags = true.
Proof.
  induction cmdFlags as [|f fs IH]; [done|]. simpl.
  destruct (flagAllowed f); simpl; [done|]. split; discriminate.
Qed.

(** [validatePath] has no [return] with a list of sub-directories. *)
Lemma validatePath_no_subdirs env pkgPath workingDir :
  (validatePath env pkgPath workingDir).2 = None.
Proof.
  unfold validatePath.
  repeat (match goal with
          | |- context [if ?b then _ else _] => destruct b
          | |- context [match readModuleName ?e ?p with _ => _ end] =>
              destruct (readModuleName e p)
          end; try done).
Qed.

(** What a call of [runGoDoc] adds to the trace: nothing, or the one
    command. *)
Lemma runGoDoc_trace env gs tr dir args :
  (runGoDoc env gs tr dir args).2 = tr ∨
  (runGoDoc env gs tr dir args).2 = tr ++ [EvExec (goDocCmd dir args)].
Proof.
  unfold runGoDoc.
  destruct (lookupDoc env (cache gs) (cacheKeyOf dir args)) as [[out|] c];
    [by left|].
  right. by destruct (exec_err (CombinedOutput env (goDocCmd dir args))).
Qed.

Lemma runGoDoc_no_fault env gs tr dir args :
  is_fault (runGoDoc env gs tr dir args).1.1 = false.
Proof.
  unfold runGoDoc.
  destruct (lookupDoc env (cache gs) (cacheKeyOf dir args)) as [[out|] c];
    [done|].
  by destruct (exec_err (CombinedOutput env (goDocCmd dir args))).
Qed.

(** After a call that returned a document the cache holds it under the key
    of the call. *)
Lemma runGoDoc_ok_cached env gs tr dir args out gs1 tr1 :
  runGoDoc env gs tr dir args = (Ok out, gs1, tr1) →
  ∃ doc, cache gs1 !! cacheKeyOf dir args = Some doc ∧ content doc = out.
Proof.
  unfold runGoDoc.
  destruct (lookupDoc env (cache gs) (cacheKeyOf dir args))
    as [[hit|] c] eqn:Hlookup.
  - intros [= <- <- <-].
    apply lookupDoc_hit_inv in Hlookup as (_ & doc & ? & ? & _). eauto.
  - destruct (exec_err (CombinedOutput env (goDocCmd dir args))); [done|].
    intros [= <- <- <-]. simpl. eexists. split; [apply lookup_insert_eq|done].
Qed.

(** A page begins with its header. *)
Lemma paginate_Ok_header content page pageSize out :
  paginate content page pageSize = Ok out → HasPrefix out "Page " = true.
Proof.
  unfold paginate.
  destruct (totalPagesOf _ pageSize) as [totalPages|]; [|done].
  destruct (totalPages <? clampPage page); [done|].
  destruct (slice _ _ _); [|done]. by intros [= <-].
Qed.

End HandlerFacts.

(** X10. A request that fails validation has no effect: when the path
    argument is missing, or a working directory is given that is not an
    existing directory, or [cmd_flags] holds a flag other than [-all],
    [-src], [-u], [-short] and [-c], or the path does not resolve,
    [handleGetDoc] answers with an error result, runs no command, creates
    and removes no directory and leaves the cache as it is. *)
Theorem handleGetDoc_rejects (env : Env) (gs : godocServer) (tr : list Event)
    (request : CallToolRequest) :
  let workingDir := GetString (arg_working_dir request) "" in
  let cmdFlags := GetStringSlice (arg_cmd_flags request) [] in
  (arg_path request = None ∨
   (workingDir ≠ "" ∧ os_Stat env workingDir ≠ Some true) ∨
   (∃ f, f ∈ cmdFlags ∧ f ∉ ["-all"; "-src"; "-u"; "-short"; "-c"]) ∨
   (∃ pkgPath, arg_path request = Some pkgPath ∧
      is_error (validatePath env pkgPath workingDir).1 = true)) →
  ∃ msg, handleGetDoc env gs tr request = (Ok (ToolResultError msg), gs, tr).
Proof.
  intros workingDir cmdFlags Hreject. unfold handleGetDoc.
  destruct (arg_path request) as [pkgPath|] eqn:Hpath; [|by eexists].
  fold workingDir cmdFlags.
  destruct (negb (String.eqb workingDir "") &&
            negb (default false (os_Stat env workingDir))) eqn:Hwd;
    [by eexists|].
  destruct (List.find (λ f, negb (flagAllowed f)) cmdFlags) as [f|] eqn:Hfind;
    [by eexists|].
  pose proof (validatePath_no_subdirs env pkgPath workingDir) as Hnone.
  destruct (validatePath env pkgPath workingDir) as [[resolved|err|msg] subDirs]
    eqn:Hvalid; simpl in Hnone; subst subDirs; [|by eexists|].
  - exfalso. destruct Hreject as [?|[[Hne Hstat]|[(f & Hin & Hout)|Hresolve]]].
    + done.
    + apply String.eqb_neq in Hne. rewrite Hne in Hwd. simpl in Hwd.
      destruct (os_Stat env workingDir) as [[]|]; done.
    + apply find_disallowed in Hfind. rewrite forallb_forall in Hfind.
      apply Hout, flagAllowed_iff, Hfind. by apply list_elem_of_In.
    + destruct Hresolve as (p & [= <-] & Herr). by rewrite Hvalid in Herr.
  - exfalso. destruct Hreject as [?|[[Hne Hstat]|[(f & Hin & Hout)|Hresolve]]].
    + done.
    + apply String.eqb_neq in Hne. rewrite Hne in Hwd. simpl in Hwd.
      destruct (os_Stat env workingDir) as [[]|]; done.
    + apply find_disallowed in Hfind. rewrite forallb_forall in Hfind.
      apply Hout, flagAllowed_iff, Hfind. by apply list_elem_of_In.
    + destruct Hresolve as (p & [= <-] & Herr). by rewrite Hvalid in Herr.
Qed.

Lemma handleGetDoc_rejects_witness :
  ("-overlay" ∈ ["-all"; "-overlay"]) ∧
  ("-overlay" ∉ ["-all"; "-src"; "-u"; "-short"; "-c"]) ∧
  ∃ msg, handleGetDoc Examples.env newGodocServer [] Examples.badFlagRequest
         = (Ok (ToolResultError msg), newGodocServer, []).
Proof.
  assert ("-overlay" ∈ ["-all"; "-overlay"]) as Hin
    by (apply elem_of_cons; right; apply elem_of_cons; by left).
  assert ("-overlay" ∉ ["-all"; "-src"; "-u"; "-short"; "-c"]) as Hout
    by (rewrite !not_elem_of_cons; repeat split; (discriminate || apply not_elem_of_nil)).
  split; [exact Hin|]. split; [exact Hout|].
  apply (handleGetDoc_rejects Examples.env newGodocServer [] Examples.badFlagRequest).
  right. right. left. exists "-overlay". split; [exact Hin|exact Hout].
Defined.

(** Decides membership of an event in an explicit list. *)
Ltac event_cases Hin :=
  repeat (apply elem_of_cons in Hin as [Hin|Hin];
          [try discriminate Hin; try (injection Hin as ->; by split)|]);
  try (by apply elem_of_nil in Hin).

(** X11. The temporary project of a request is removed when the request
    ends, however it ends: for a request without working directory that
    passes validation and gets its temporary directory, the last thing
    [handleGetDoc] does is to remove that directory, it removes nothing
    else, and every command it runs is [go], run inside that directory. *)
Theorem handleGetDoc_removes_temp (env : Env) (gs : godocServer)
    (tr : list Event) (request : CallToolRequest)
    (pkgPath resolved tempDir : string) :
  arg_path request = Some pkgPath →
  GetString (arg_working_dir request) "" = "" →
  forallb flagAllowed (GetStringSlice (arg_cmd_flags request) []) = true →
  validatePath env pkgPath "" = (Ok resolved, None) →
  os_MkdirTemp env = Ok tempDir →
  ∃ new,
    (handleGetDoc env gs tr request).2 = tr ++ new ++ [EvRemoveAll tempDir] ∧
    (∀ dir, EvRemoveAll dir ∉ new) ∧
    (∀ cmd, EvExec cmd ∈ new → cmd_name cmd = "go" ∧ cmd_dir cmd = tempDir).
Proof.
  intros Hpath Hwd Hflags Hvalid Hdir.
  unfold handleGetDoc, projectDir, createTempProject.
  rewrite Hpath, Hwd. cbn [String.eqb negb andb].
  apply find_disallowed in Hflags. rewrite Hflags, Hvalid, Hdir.
  set (init := {| cmd_name := "go"; cmd_args := ["mod"; "init"; "godoc-temp"];
                  cmd_dir := tempDir |}).
  set (get := {| cmd_name := "go"; cmd_args := ["get"; resolved];
                 cmd_dir := tempDir |}).
  assert (∀ tr1 new1,
    tr1 = tr ++ new1 →
    (∀ dir, EvRemoveAll dir ∉ new1) →
    (∀ cmd, EvExec cmd ∈ new1 → cmd_name cmd = "go" ∧ cmd_dir cmd = tempDir) →
    ∃ new,
      (match runGoDoc env gs tr1 tempDir
               (goDocArgs (GetStringSlice (arg_cmd_flags request) []) resolved
                  (GetString (arg_target request) "")) with
       | (Panic msg, gs, tr) => (Panic msg, gs, tr ++ [EvRemoveAll tempDir])
       | (Error err, gs, tr) =>
           (Ok (ToolResultError err), gs, tr ++ [EvRemoveAll tempDir])
       | (Ok doc, gs, tr) =>
           match paginate doc (GetInt (arg_page request) 1)
                          (GetInt (arg_page_size request) 1000) with
           | Panic msg => (Panic msg, gs, tr ++ [EvRemoveAll tempDir])
           | Error err => (Ok (ToolResultError err), gs, tr ++ [EvRemoveAll tempDir])
           | Ok result => (Ok (ToolResultText result), gs, tr ++ [EvRemoveAll tempDir])
           end
       end).2 = tr ++ new ++ [EvRemoveAll tempDir] ∧
      (∀ dir, EvRemoveAll dir ∉ new) ∧
      (∀ cmd, EvExec cmd ∈ new → cmd_name cmd = "go" ∧ cmd_dir cmd = tempDir))
    as Hrun.
  { intros tr1 new1 -> Hrm Hcmds.
    set (args := goDocArgs _ resolved _).
    destruct (runGoDoc_trace env gs (tr ++ new1) tempDir args) as [Htr|Htr];
      destruct (runGoDoc env gs (tr ++ new1) tempDir args) as [[res gs1] tr1];
      simpl in Htr; subst tr1.
    - exists new1. split; [|done].
      destruct res as [doc| |]; [destruct (paginate doc _ _)|..];
        by rewrite <- app_assoc.
    - exists (new1 ++ [EvExec (goDocCmd tempDir args)]). split; [|split].
      + destruct res as [doc| |]; [destruct (paginate doc _ _)|..];
          by rewrite <- !app_assoc.
      + intros dir [Hin|Hin%list_elem_of_singleton]%elem_of_app;
          [by apply (Hrm dir)|done].
      + intros cmd [Hin|Hin%list_elem_of_singleton]%elem_of_app;
          [by apply Hcmds|]. by injection Hin as ->. }
  destruct (exec_err (CombinedOutput env init)) as [err|].
  { exists [EvExec init]. split; [by rewrite <- !app_assoc|].
    split; intros ? Hin; event_cases Hin. }
  destruct (isStdLib resolved); cbn [negb].
  { apply (Hrun _ [EvExec init]); [done|..]; intros ? Hin; event_cases Hin. }
  destruct (exec_err (CombinedOutput env get)) as [err|].
  { exists [EvExec init; EvExec get]. split; [by rewrite <- !app_assoc|].
    split; intros ? Hin; event_cases Hin. }
  apply (Hrun _ [EvExec init; EvExec get]); [by rewrite <- app_assoc|..];
    intros ? Hin; event_cases Hin.
Qed.

Lemma handleGetDoc_removes_temp_witness :
  validatePath Examples.env "io" "" = (Ok "io", None) ∧
  os_MkdirTemp Examples.env = Ok "/tmp/godoc-mcp-1" ∧
  ∃ new,
    (handleGetDoc Examples.env newGodocServer [] Examples.stdlibRequest).2
    = [] ++ new ++ [EvRemoveAll "/tmp/godoc-mcp-1"] ∧
    ∀ dir, EvRemoveAll dir ∉ new.
Proof.
  split; [reflexivity|]. split; [reflexivity|].
  destruct (handleGetDoc_removes_temp Examples.env newGodocServer []
              Examples.stdlibRequest "io" "io" "/tmp/godoc-mcp-1"
              eq_refl eq_refl eq_refl eq_refl eq_refl) as (new & Htrace & Hrm & _).
  exists new. split; [exact Htrace|exact Hrm].
Defined.

(** X12. Every text result of [handleGetDoc] is a page of a document: it
    is what [paginate] made of the document for the requested page and page
    size, and so begins with the header [Page ...]. The handler never
    answers with a list of sub-directories, since [validatePath] never
    returns one. *)
Theorem handleGetDoc_text_is_page (env : Env) (gs gs' : godocServer)
    (tr tr' : list Event) (request : CallToolRequest) (text : string) :
  handleGetDoc env gs tr request = (Ok (ToolResultText text), gs', tr') →
  HasPrefix text "Page " = true ∧
  ∃ doc, paginate doc (GetInt (arg_page request) 1)
                      (GetInt (arg_page_size request) 1000) = Ok text.
Proof.
  unfold handleGetDoc.
  destruct (arg_path request) as [pkgPath|]; [|done].
  destruct (_ && _); [done|].
  destruct (List.find _ _); [done|].
  pose proof (validatePath_no_subdirs env pkgPath
                (GetString (arg_working_dir request) "")) as Hnone.
  destruct (validatePath env pkgPath _) as [[resolved|err|msg] subDirs];
    simpl in Hnone; subst subDirs; [|done..].
  destruct (projectDir env tr _ resolved) as [[[dir|err|msg] tr1] deferred];
    [|done..].
  destruct (runGoDoc env gs tr1 dir _) as [[[doc|err|msg] gs1] tr2]; [|done..].
  destruct (paginate doc _ _) as [result|err|msg] eqn:Hpage; [|done..].
  intros [= <- <- <-]. split; [by apply paginate_Ok_header in Hpage|by exists doc].
Qed.

Lemma handleGetDoc_text_is_page_witness :
  ∃ text gs' tr',
    handleGetDoc Examples.env newGodocServer [] Examples.stdlibRequest
    = (Ok (ToolResultText text), gs', tr') ∧
    HasPrefix text "Page " = true.
Proof.
  set (r := handleGetDoc Examples.env newGodocServer [] Examples.stdlibRequest).
  assert (r = (Ok (ToolResultText
                 ("Page 1 of 1 (showing lines 1-5 of 5)" +:+ NL +:+ NL +:+
                  Examples.threeLines +:+ NL +:+ "d" +:+ NL +:+ "e")),
               r.1.2, r.2)) as Hr by (vm_compute; reflexivity).
  eexists _, _, _. split; [exact Hr|].
  exact (proj1 (handleGetDoc_text_is_page _ _ _ _ _ _ _ Hr)).
Defined.

(** X13. Only [cmd_flags] is checked against the allow-list: an import
    path (a path that begins neither with [.] nor with [/]) and the target
    are handed to [go doc] as they are. For such a request with a valid
    working directory and no live cache entry, [handleGetDoc] runs exactly
    one command, [go doc] with the flags, the path and, when it is not
    empty, the target, in the working directory. *)
Theorem handleGetDoc_runs_go_doc (env : Env) (gs : godocServer)
    (tr : list Event) (request : CallToolRequest) (pkgPath : string) :
  let workingDir := GetString (arg_working_dir request) "" in
  let cmdFlags := GetStringSlice (arg_cmd_flags request) [] in
  let target := GetString (arg_target request) "" in
  let args := cmdFlags ++ [pkgPath] ++
              (if String.eqb target "" then [] else [target]) in
  arg_path request = Some pkgPath →
  HasPrefix pkgPath "." = false → HasPrefix pkgPath "/" = false →
  workingDir ≠ "" → os_Stat env workingDir = Some true →
  forallb flagAllowed cmdFlags = true →
  (lookupDoc env (cache gs) (cacheKeyOf workingDir args)).1 = None →
  (handleGetDoc env gs tr request).2
  = tr ++ [EvExec {| cmd_name := "go"; cmd_args := "doc" :: args;
                     cmd_dir := workingDir |}].
Proof.
  intros workingDir cmdFlags target args Hpath Hdot Hslash Hwd Hstat Hflags Hmiss.
  unfold handleGetDoc. rewrite Hpath. fold workingDir cmdFlags target.
  apply String.eqb_neq in Hwd. rewrite Hwd, Hstat. cbn [negb andb default].
  apply find_disallowed in Hflags. rewrite Hflags.
  unfold validatePath, Path.filepath_IsAbs. rewrite Hdot, Hslash. cbn [orb].
  unfold projectDir. rewrite Hwd.
  change (goDocArgs cmdFlags pkgPath target) with args.
  unfold runGoDoc.
  destruct (lookupDoc env (cache gs) (cacheKeyOf workingDir args))
    as [[hit|] c]; [done|].
  destruct (exec_err (CombinedOutput env (goDocCmd workingDir args))).
  - by rewrite app_nil_r.
  - destruct (paginate _ _ _); by rewrite app_nil_r.
Qed.

Lemma handleGetDoc_runs_go_doc_witness :
  (handleGetDoc Examples.env newGodocServer []
     {| arg_path := Some "-C=/etc"; arg_target := Some "-u";
        arg_cmd_flags := Some ["-short"]; arg_working_dir := Some "/w";
        arg_page := None; arg_page_size := None |}).2
  = [] ++ [EvExec {| cmd_name := "go";
                     cmd_args := ["doc"; "-short"; "-C=/etc"; "-u"];
                     cmd_dir := "/w" |}].
Proof.
  apply (handleGetDoc_runs_go_doc Examples.env newGodocServer []
           {| arg_path := Some "-C=/etc"; arg_target := Some "-u";
              arg_cmd_flags := Some ["-short"]; arg_working_dir := Some "/w";
              arg_page := None; arg_page_size := None |} "-C=/etc");
    (reflexivity || discriminate).
Defined.

(** X14. A request with a working directory that was answered with a page
    and is repeated while the entry of its key is younger than the TTL, and
    while its path resolves to the same import path, gets the same page
    again and runs no command: the second call of [handleGetDoc] changes
    neither the cache nor the trace. *)
Theorem handleGetDoc_repeat_hits (env1 env2 : Env) (gs gs1 : godocServer)
    (tr tr1 : list Event) (request : CallToolRequest)
    (pkgPath resolved text : string) :
  let workingDir := GetString (arg_working_dir request) "" in
  let key := cacheKeyOf workingDir
               (goDocArgs (GetStringSlice (arg_cmd_flags request) []) resolved
                  (GetString (arg_target request) "")) in
  arg_path request = Some pkgPath →
  workingDir ≠ "" →
  validatePath env1 pkgPath workingDir = (Ok resolved, None) →
  handleGetDoc env1 gs tr request = (Ok (ToolResultText text), gs1, tr1) →
  os_Stat env2 workingDir = Some true →
  validatePath env2 pkgPath workingDir = (Ok resolved, None) →
  (∀ doc, cache gs1 !! key = Some doc →
     Time.Since (clockAtLookup env2) (timestamp doc) < cacheTTL) →
  handleGetDoc env2 gs1 tr1 request = (Ok (ToolResultText text), gs1, tr1).
Proof.
  intros workingDir key Hpath Hwd Hvalid1 Hfirst Hstat Hvalid2 Hlive.
  unfold handleGetDoc in *. rewrite Hpath in *. fold workingDir in Hfirst |- *.
  apply String.eqb_neq in Hwd. rewrite Hwd in *. rewrite Hstat.
  cbn [negb andb default] in *.
  destruct (default false (os_Stat env1 workingDir)); [|done]. cbn [negb] in Hfirst.
  destruct (List.find _ _); [done|]. rewrite Hvalid1 in Hfirst. rewrite Hvalid2.
  unfold projectDir in *. rewrite Hwd in *.
  set (args := goDocArgs _ resolved _) in *.
  destruct (runGoDoc env1 gs tr workingDir args) as [[[doc|err|msg] gs1'] tr1']
    eqn:Hrun; [|done..].
  destruct (paginate doc _ _) as [result|err|msg] eqn:Hpage; [|done..].
  injection Hfirst as -> -> <-. rewrite app_nil_r in *.
  apply runGoDoc_ok_cached in Hrun as (entry & Hentry & Hcontent).
  unfold runGoDoc.
  rewrite (lookupDoc_hit env2 (cache gs1) _ entry Hentry (Hlive _ Hentry)).
  by rewrite Hcontent, Hpage, app_nil_r.
Qed.

Lemma handleGetDoc_repeat_hits_witness :
  handleGetDoc (Examples.envAt 100)
    (handleGetDoc Examples.env newGodocServer [] (Examples.request None)).1.2
    (handleGetDoc Examples.env newGodocServer [] (Examples.request None)).2
    (Examples.request None)
  = handleGetDoc Examples.env newGodocServer [] (Examples.request None).
Proof.
  set (first := handleGetDoc Examples.env newGodocServer [] (Examples.request None)).
  set (text := "Page 1 of 1 (showing lines 1-5 of 5)" +:+ NL +:+ NL +:+
               Examples.threeLines +:+ NL +:+ "d" +:+ NL +:+ "e").
  assert (first = (Ok (ToolResultText text), first.1.2, first.2)) as Hfirst
    by (vm_compute; reflexivity).
  rewrite Hfirst at 3.
  apply (handleGetDoc_repeat_hits Examples.env (Examples.envAt 100)
           newGodocServer first.1.2 [] first.2 (Examples.request None)
           "./sub/pkg" "example.com/app/sub/pkg" text);
    [reflexivity|discriminate|reflexivity|exact Hfirst|reflexivity|reflexivity|].
  intros doc Hdoc.
  assert (cache first.1.2
          = {[ cacheKeyOf "/w" ["-all"; "example.com/app/sub/pkg"] :=
                 {| content := Examples.threeLines +:+ NL +:+ "d" +:+ NL +:+ "e";
                    timestamp := 11 |} ]}) as Hcache by (vm_compute; reflexivity).
  rewrite Hcache in Hdoc. apply lookup_singleton_Some in Hdoc as [_ <-].
  vm_compute. reflexivity.
Defined.


(** ** More on the cache *)

(** X15. An entry that has reached the TTL is never served, and an absent
    one cannot be: [runGoDoc] then runs the extractor, once. When that
    succeeds the output is returned and stored under the key, stamped with
    the time of the store; when it fails the error is returned and the key
    has no entry afterwards, so a stale document does not survive a failed
    refresh. *)
Theorem runGoDoc_stale_reruns (env : Env) (gs : godocServer) (tr : list Event)
    (dir : string) (args : list string) :
  let key := cacheKeyOf dir args in
  let res := CombinedOutput env (goDocCmd dir args) in
  let r := runGoDoc env gs tr dir args in
  (∀ doc, cache gs !! key = Some doc →
     cacheTTL <= Time.Since (clockAtLookup env) (timestamp doc)) →
  r.2 = tr ++ [EvExec (goDocCmd dir args)] ∧
  (exec_err res = None →
     r.1.1 = Ok (exec_out res) ∧
     cache r.1.2 !! key
     = Some {| content := exec_out res; timestamp := clockAtStore env |}) ∧
  (∀ err, exec_err res = Some err →
     r.1.1 = Error (formatGoDocError (exec_out res) err) ∧
     cache r.1.2 !! key = None).
Proof.
  intros key res r Hstale. subst r. unfold runGoDoc. fold key res.
  assert (∃ c, lookupDoc env (cache gs) key = (None, c) ∧ c !! key = None)
    as (c & -> & Hgone).
  { unfold lookupDoc. destruct (cache gs !! key) as [doc|] eqn:Hdoc.
    - destruct (Z.ltb_spec (Time.Since (clockAtLookup env) (timestamp doc))
                  cacheTTL) as [Hlive|_].
      + specialize (Hstale doc eq_refl). lia.
      + eexists. split; [done|apply lookup_delete_eq].
    - by eexists. }
  destruct (exec_err res) as [err|]; simpl.
  - split; [done|]. split; [done|]. by intros ? [= <-].
  - split; [done|]. split; [|done]. intros _. split; [done|].
    apply lookup_insert_eq.
Qed.

Lemma runGoDoc_stale_reruns_witness :
  (∀ doc, cache newGodocServer !! cacheKeyOf "/w" ["io"] = Some doc →
     cacheTTL <= Time.Since (clockAtLookup Examples.env) (timestamp doc)) ∧
  (runGoDoc Examples.env newGodocServer [] "/w" ["io"]).2
  = [] ++ [EvExec (goDocCmd "/w" ["io"])].
Proof.
  assert (∀ doc, cache newGodocServer !! cacheKeyOf "/w" ["io"] = Some doc →
     cacheTTL <= Time.Since (clockAtLookup Examples.env) (timestamp doc))
    as Hstale by (intros doc Hdoc; discriminate Hdoc).
  split; [exact Hstale|].
  exact (proj1 (runGoDoc_stale_reruns Examples.env newGodocServer [] "/w"
                  ["io"] Hstale)).
Defined.

Lemma runGoDoc_keeps_others (env : Env) (gs : godocServer) (tr : list Event)
    (dir : string) (args : list string) (k : string) (doc : cachedDoc) :
  k ≠ cacheKeyOf dir args →
  cache (runGoDoc env gs tr dir args).1.2 !! k = Some doc →
  cache gs !! k = Some doc.
Proof.
  intros Hk. rewrite runGoDoc_cache_ops.
  set (key := cacheKeyOf dir args) in *.
  set (res := CombinedOutput env (goDocCmd dir args)).
  assert (∀ d, (lookupDoc env (cache gs) key).2 !! k = Some d →
               cache gs !! k = Some d) as Hlookup.
  { intros d. unfold lookupDoc. destruct (cache gs !! key); [|done].
    destruct (_ <? _); [done|]. simpl. by rewrite lookup_delete_ne. }
  set (c := (lookupDoc env (cache gs) key).2) in *.
  destruct (lookupDoc env (cache gs) key).1 as [hit|];
    [|destruct (exec_err res) as [err|]]; unfold runOps; cbn [foldl applyOp];
    fold c; [apply Hlookup..|].
  unfold storeDoc. rewrite lookup_insert_ne by done.
  unfold evictIfFull. destruct (_ <=? _); [|apply Hlookup].
  intros [_ Hdoc]%lookup_delete_Some. by apply Hlookup.
Qed.

(** X16. A call of [runGoDoc] leaves the entries of other keys alone: it
    never creates or changes one; while the cache holds fewer than
    [maxCacheSize] entries it removes none; and at any size it removes at
    most one. *)
Theorem runGoDoc_frame (env : Env) (gs : godocServer) (tr : list Event)
    (dir : string) (args : list string) :
  let key := cacheKeyOf dir args in
  let after := cache (runGoDoc env gs tr dir args).1.2 in
  (∀ k doc, k ≠ key → after !! k = Some doc → cache gs !! k = Some doc) ∧
  (Z.of_nat (size (cache gs)) < maxCacheSize →
     ∀ k, k ≠ key → after !! k = cache gs !! k) ∧
  (∀ k1 k2, k1 ≠ key → k2 ≠ key →
     is_Some (cache gs !! k1) → is_Some (cache gs !! k2) →
     after !! k1 = None → after !! k2 = None → k1 = k2).
Proof.
  intros key after. subst after. rewrite runGoDoc_cache_ops. fold key.
  set (res := CombinedOutput env (goDocCmd dir args)).
  assert (∀ k, k ≠ key →
            (lookupDoc env (cache gs) key).2 !! k = cache gs !! k) as Hlookup.
  { intros k Hk. unfold lookupDoc. destruct (cache gs !! key); [|done].
    destruct (_ <? _); [done|]. simpl. by rewrite lookup_delete_ne. }
  pose proof (lookupDoc_size env (cache gs) key) as Hsize.
  set (c := (lookupDoc env (cache gs) key).2) in *.
  assert (∀ k, k ≠ key →
            storeDoc env c key (exec_out res) !! k = evictIfFull env c !! k)
    as Hstore by (intros k Hk; unfold storeDoc; by rewrite lookup_insert_ne).
  assert (evictIfFull env c = c ∨
          evictIfFull env c = delete (oldestKeyOf env c) c) as Hevict
    by (unfold evictIfFull; destruct (_ <=? _); auto).
  destruct (lookupDoc env (cache gs) key).1 as [hit|];
    [|destruct (exec_err res) as [err|]]; unfold runOps; cbn [foldl applyOp];
    fold c.
  1,2: split; [|split].
  1,4: by intros k doc Hk; rewrite Hlookup.
  1,3: by intros _ k Hk; rewrite Hlookup.
  1,2: intros k1 k2 Hk1 Hk2 [d1 Hd1] _; rewrite Hlookup, Hd1 by done; done.
  split; [|split].
  - intros k doc Hk. rewrite Hstore by done.
    destruct Hevict as [-> | ->]; [by rewrite Hlookup|].
    intros [_ Hdoc]%lookup_delete_Some. by rewrite <- Hlookup.
  - intros Hroom k Hk. rewrite Hstore by done. unfold evictIfFull.
    destruct (Z.leb_spec maxCacheSize (Z.of_nat (size c))); [lia|].
    by apply Hlookup.
  - intros k1 k2 Hk1 Hk2 [d1 Hd1] [d2 Hd2]. rewrite !Hstore by done.
    destruct Hevict as [-> | ->].
    + by rewrite Hlookup, Hd1.
    + rewrite !lookup_delete_None, !Hlookup, Hd1, Hd2 by done.
      intros [Hk1'|?] [Hk2'|?]; congruence.
Qed.

Lemma runGoDoc_frame_witness :
  Z.of_nat (size Examples.warmCache) < maxCacheSize ∧
  Examples.nthKey 1 ≠ cacheKeyOf "/w" ["io"] ∧
  cache (runGoDoc Examples.env {| cache := Examples.warmCache |} [] "/w"
           ["io"]).1.2 !! Examples.nthKey 1
  = Examples.warmCache !! Examples.nthKey 1.
Proof.
  assert (Z.of_nat (size Examples.warmCache) < maxCacheSize) as Hroom
    by (vm_compute; reflexivity).
  assert (Examples.nthKey 1 ≠ cacheKeyOf "/w" ["io"]) as Hother
    by (vm_compute; discriminate).
  split; [exact Hroom|]. split; [exact Hother|].
  exact (proj1 (proj2 (runGoDoc_frame Examples.env
           {| cache := Examples.warmCache |} [] "/w" ["io"])) Hroom _ Hother).
Defined.

Lemma hasBar_cacheKeyOf dir args : hasBar (cacheKeyOf dir args) = true.
Proof.
  unfold hasBar, cacheKeyOf. rewrite Contains_byte_app.
  apply orb_true_iff. right. by destruct (Join args "|").
Qed.

(** X17. Whatever calls of [runGoDoc] a fresh server has served, one after
    the other, every key of its cache is the key of a call (a directory, a
    bar and the arguments joined by bars), so no key is the empty string,
    which the eviction scan uses for "no entry seen yet"; and the cache
    holds at most [maxCacheSize] entries. *)
Theorem runCalls_invariant (calls : list (Env * string * list string)) :
  Forall (λ call, range_ok call.1.1) calls →
  let c := cache (runCalls newGodocServer calls) in
  (∀ k, is_Some (c !! k) →
     hasBar k = true ∧ ∃ call, call ∈ calls ∧ k = cacheKeyOf call.1.2 call.2) ∧
  c !! "" = None ∧
  Z.of_nat (size c) <= maxCacheSize.
Proof.
  intros Hrange. cbv zeta.
  assert (let c := cache (runCalls newGodocServer calls) in
          (∀ k, is_Some (c !! k) →
             ∃ call, call ∈ calls ∧ k = cacheKeyOf call.1.2 call.2) ∧
          Z.of_nat (size c) <= maxCacheSize) as [Hkeys Hsize].
  { unfold runCalls. induction calls as [|call calls IH] using rev_ind.
    - simpl. split; [by intros k [? ?]|].
      rewrite map_size_empty. unfold maxCacheSize. lia.
    - apply Forall_app in Hrange as [Hrange Hcall].
      apply Forall_inv in Hcall.
      rewrite foldl_app. cbn [foldl].
      set (gs := foldl _ newGodocServer calls) in *.
      destruct (IH Hrange) as [IHkeys IHsize]. split.
      + intros k [doc Hdoc].
        destruct (decide (k = cacheKeyOf call.1.2 call.2)) as [->|Hk].
        * exists call. split; [|done]. apply elem_of_app. right.
          by apply list_elem_of_singleton.
        * apply runGoDoc_keeps_others in Hdoc; [|done].
          destruct (IHkeys k ltac:(eauto)) as (call' & Hin & ->). exists call'.
          split; [|done]. apply elem_of_app. by left.
      + rewrite runGoDoc_cache_ops.
        destruct (lookupDoc call.1.1 (cache gs)
                    (cacheKeyOf call.1.2 call.2)).1,
                 (exec_err (CombinedOutput call.1.1
                              (goDocCmd call.1.2 call.2)));
          unfold runOps; cbn [foldl];
          repeat (apply applyOp_size; [done|]); done. }
  split; [|split; [|done]].
  - intros k Hk. destruct (Hkeys k Hk) as (call & Hin & ->).
    split; [apply hasBar_cacheKeyOf|eauto].
  - destruct (cache (runCalls newGodocServer calls) !! "") eqn:Hempty; [|done].
    destruct (Hkeys "" ltac:(eauto)) as (call & _ & Hkey).
    symmetry in Hkey. by apply cacheKeyOf_nonempty in Hkey.
Qed.

Lemma runCalls_invariant_witness :
  Forall (λ call : Env * string * list string, range_ok call.1.1)
    [(Examples.env, "/w", ["io"]); (Examples.failingEnv, "/w", ["nosuch"])] ∧
  cache (runCalls newGodocServer
           [(Examples.env, "/w", ["io"]); (Examples.failingEnv, "/w", ["nosuch"])])
    !! "" = None.
Proof.
  assert (Forall (λ call : Env * string * list string, range_ok call.1.1)
            [(Examples.env, "/w", ["io"]); (Examples.failingEnv, "/w", ["nosuch"])])
    as Hrange by (repeat constructor; intros c; reflexivity).
  split; [exact Hrange|].
  exact (proj1 (proj2 (runCalls_invariant _ Hrange))).
Defined.

(** ** The categories of a failed extraction *)

(** X18. The category of the message of [formatGoDocError] is decided by
    the extractor's output alone, in a fixed order of precedence, and can be
    read back from the first words of the message: "package not found:"
    exactly when the output mentions a missing package; "symbol not found:"
    exactly when it does not but mentions a missing symbol; the platform
    hint exactly when it mentions neither but has the build-constraints
    text; and "go doc error: " exactly when it has none of the three. *)
Theorem formatGoDocError_category (output err : string) :
  let msg := formatGoDocError output err in
  let pkg := Contains output "no such package" || Contains output "is not in std" in
  let sym := Contains output "no such symbol" in
  let plat := Contains output "build constraints exclude all Go files" in
  HasPrefix msg "package not found:" = pkg ∧
  HasPrefix msg "symbol not found:" = negb pkg && sym ∧
  HasPrefix msg "no Go files for current platform" = negb pkg && negb sym && plat ∧
  HasPrefix msg "go doc error: " = negb pkg && negb sym && negb plat ∧
  msg ≠ "".
Proof.
  intros msg pkg sym plat. subst msg. unfold formatGoDocError.
  fold pkg sym plat. destruct pkg, sym, plat; done.
Qed.
